(** * IsaacLab: the lazily refreshed data container of a rigid object collection

    A shallow embedding of
    [omni/isaac/lab/assets/rigid_object_collection/rigid_object_collection_data.py]:
    the reorder of the physics view's buffers ([_view_to_data_order]), the
    simulation clock ([update]) and the two timestamped caches
    ([object_state_w], [object_acc_w]) with the properties sliced out of them
    and the body-frame properties computed from those slices.

    Python's [float] is IEEE binary64 and is modelled by Rocq's primitive
    floats; Python's [int] by [Z]; a tensor by nested lists of its elements
    (the element type is left abstract: the container only moves elements
    around); a raised exception by the [Raise] case of [result]. *)

From Stdlib Require Import ZArith List Lia Bool Floats.
Import ListNotations.

Set Implicit Arguments.

(** ** Exceptions *)

Inductive exception : Type :=
| RuntimeError
| ValueError
| TypeError
| ZeroDivisionError.

Inductive result (X : Type) : Type :=
| Ok (x : X)
| Raise (e : exception).

Arguments Ok {X} x.
Arguments Raise {X} e.

Definition result_bind {X Y : Type} (r : result X) (f : X -> result Y) : result Y :=
  match r with
  | Ok x => f x
  | Raise e => Raise e
  end.

Definition result_map {X Y : Type} (f : X -> Y) (r : result X) : result Y :=
  result_bind r (fun x => Ok (f x)).

Fixpoint map_m {X Y : Type} (f : X -> result Y) (l : list X) : result (list Y) :=
  match l with
  | [] => Ok []
  | x :: l' =>
      result_bind (f x) (fun y => result_bind (map_m f l') (fun ys => Ok (y :: ys)))
  end.

(** Elementwise combination of two lists of the same length; a length
    mismatch is torch's shape error. *)
Fixpoint zip_with_m {X Y W : Type} (f : X -> Y -> result W)
  (l1 : list X) (l2 : list Y) : result (list W) :=
  match l1, l2 with
  | [], [] => Ok []
  | x :: l1', y :: l2' =>
      result_bind (f x y) (fun w =>
      result_bind (zip_with_m f l1' l2') (fun ws => Ok (w :: ws)))
  | _, _ => Raise RuntimeError
  end.

(** ** The simulation clock's number type *)

Module Float64.

(** [dt > 0] and [x >= 0] on Python floats (both false of NaN). *)
Definition positive_step (dt : float) : Prop := (0 <? dt)%float = true.

Definition nonneg (x : float) : Prop := (0 <=? x)%float = true.

(** [+0.0], a positive number or [+inf]: what a sum of positive steps
    started at [0.0] can be. *)
Definition zero_or_positive (x : float) : Prop :=
  match Prim2SF x with
  | S754_zero false | S754_finite false _ _ | S754_infinity false => True
  | _ => False
  end.

End Float64.

(** ** The tensor operations the container calls *)

Module Torch.
Section Tensors.
Context {A : Type}.

(** A buffer of shape (rows, columns) and one of shape (d0, d1, columns). *)
Definition tensor2 : Type := list (list A).
Definition tensor3 : Type := list (list (list A)).

(** [n] consecutive blocks of [k] elements, in storage order. *)
Fixpoint chunks {X : Type} (n k : nat) (l : list X) : list (list X) :=
  match n with
  | O => []
  | S n' => firstn k l :: chunks n' k (skipn k l)
  end.

Definition numel (t : tensor2) : Z := Z.of_nat (length (concat t)).

(** [t.clone()]: a copy with the same elements. *)
Definition clone (t : tensor2) : tensor2 := t.

(** [data.reshape(d0, d1, -1)]: the elements keep their row-major order and
    the last size is inferred.  torch refuses a negative size other than the
    single [-1], a product [d0 * d1] that is zero (the inferred size would
    be ambiguous, or the sizes cannot hold the elements) and an element
    count that [d0 * d1] does not divide. *)
Definition reshape (d0 d1 : Z) (data : tensor2) : result tensor3 :=
  if (d0 <? 0)%Z || (d1 <? 0)%Z then Raise RuntimeError
  else
    let newsize := (d0 * d1)%Z in
    if (0 <? newsize)%Z && (numel data mod newsize =? 0)%Z then
      let k := Z.to_nat (numel data / newsize) in
      Ok (map (chunks (Z.to_nat d1) k)
              (chunks (Z.to_nat d0) (Z.to_nat d1 * k) (concat data)))
    else Raise RuntimeError.

(** [torch.einsum("ijk -> jik", t)]: the first two axes are exchanged. *)
Definition einsum_ijk_jik (t : tensor3) : tensor3 :=
  match t with
  | [] => []
  | p :: _ => map (fun j => map (fun plane => nth j plane []) t) (seq 0 (length p))
  end.

(** [row[a:b]] with Python's clamping of both bounds to the row. *)
Definition slice (a b : nat) (row : list A) : list A := firstn (b - a) (skipn a row).

(** [t[..., a:b]]. *)
Definition slice_last (a b : nat) (t : tensor3) : tensor3 := map (map (slice a b)) t.

(** [t[..., a:b] = q], for [q] of the shape of the slice. *)
Definition assign_last (a b : nat) (t q : tensor3) : result tensor3 :=
  zip_with_m (zip_with_m (fun row qrow =>
    if Nat.eqb (length qrow) (length (slice a b row))
    then Ok (firstn a row ++ qrow ++ skipn b row)
    else Raise RuntimeError)) t q.

(** [torch.cat((p, q), dim=-1)]. *)
Definition cat_last (p q : tensor3) : result tensor3 :=
  zip_with_m (zip_with_m (fun r1 r2 => Ok (r1 ++ r2))) p q.

(** [torch.cat(ts, dim=-1)] of a non-empty sequence of tensors. *)
Definition cat_last_all (ts : list tensor3) : result tensor3 :=
  match ts with
  | [] => Raise RuntimeError
  | t :: ts' => fold_left (fun acc x => result_bind acc (fun a => cat_last a x)) ts' (Ok t)
  end.

(** The tensor of shape (d0, d1, _) whose row at [i, j] is [f i j]. *)
Definition tabulate3 (d0 d1 : nat) (f : nat -> nat -> list A) : tensor3 :=
  map (fun i => map (fun j => f i j) (seq 0 d1)) (seq 0 d0).

(** Shapes of rectangular buffers: [shape2 n k t] reads "[t] has shape
    (n, k)", [shape3 d0 d1 k t] reads "[t] has shape (d0, d1, k)". *)
Definition shape2 (n k : nat) (t : tensor2) : bool :=
  Nat.eqb (length t) n && forallb (fun row => Nat.eqb (length row) k) t.

Definition shape3 (d0 d1 k : nat) (t : tensor3) : bool :=
  Nat.eqb (length t) d0 && forallb (shape2 d1 k) t.

End Tensors.
Arguments tensor2 A : clear implicits.
Arguments tensor3 A : clear implicits.
End Torch.

(** ** The physics view *)

Module Physx.

(** What the container reads from [physx.RigidBodyView]: the number of
    bodies and the buffers the three getters return at the moment of the
    call.  The container holds a weak proxy of the view; the view is taken
    to be alive whenever it is read. *)
Record RigidBodyView (A : Type) : Type := {
  count : Z;
  get_transforms : Torch.tensor2 A;
  get_velocities : Torch.tensor2 A;
  get_accelerations : Torch.tensor2 A
}.

(** The getters of the view, as they appear in the container's trace. *)
Inductive call : Type :=
| GetTransforms
| GetVelocities
| GetAccelerations.

End Physx.

(** ** Quaternion component order *)

Module MathUtils.
Section Quat.
Context {A : Type}.

Inductive quat_order : Type := xyzw | wxyz.

(** Modelled from the spec: [math_utils.convert_quat] of
    [omni.isaac.lab.utils.math] is not among the source files.  The spec
    lists "convert between quaternion component orderings" among the frame
    functions, the physics view supplies (x, y, z, w) and the container
    documents (w, x, y, z): converting to [wxyz] moves the last component
    to the front, converting to [xyzw] moves the first to the back.  A
    quaternion has four components; any other width is rejected. *)
Definition convert_quat_row (to : quat_order) (quat : list A) : result (list A) :=
  match quat with
  | [a; b; c; d] =>
      match to with
      | wxyz => Ok [d; a; b; c]
      | xyzw => Ok [b; c; d; a]
      end
  | _ => Raise ValueError
  end.

Definition convert_quat (quat : Torch.tensor3 A) (to : quat_order)
  : result (Torch.tensor3 A) :=
  map_m (map_m (convert_quat_row to)) quat.

End Quat.
End MathUtils.

(** ** Timestamped buffers *)

Module Buffers.

(** Modelled from the spec: [TimestampedBuffer] of
    [omni.isaac.lab.utils.buffers] is not among the source files.  The
    spec's TimestampedCache has the attributes [data] and [timestamp]; a
    buffer that was never written holds no data (Python's [None]). *)
Record TimestampedBuffer (A : Type) : Type := {
  data : option (Torch.tensor3 A);
  timestamp : float
}.

End Buffers.

(** ** The data container *)

Module Collection.
Import Torch Physx MathUtils Buffers.

Section Data.
Context {A : Type}.

(** Modelled from the spec: the timestamp [TimestampedBuffer()] starts
    with, "a sentinel guaranteed to be less than any valid simulation
    time".  It is a parameter of the development; results that need it to
    lie below the initial simulation time [0.0] say so. *)
Variable sentinel : float.

Definition TimestampedBuffer_new : TimestampedBuffer A :=
  {| data := None; timestamp := sentinel |}.

(** The attributes the modelled methods read or write.  The constructor
    also stores the device and two constant direction tensors, which only
    [projected_gravity_b] and [heading_w] read. *)
Record RigidObjectCollectionData : Type := {
  num_objects : Z;
  num_instances : Z;
  _sim_timestamp : float;
  _object_state_w : TimestampedBuffer A;
  _object_acc_w : TimestampedBuffer A
}.

(** [RigidObjectCollectionData(root_physx_view, num_objects, device)].
    [//] is floor division and raises on a zero divisor. *)
Definition __init__ (root_physx_view : RigidBodyView A) (n_objects : Z)
  : result RigidObjectCollectionData :=
  if (n_objects =? 0)%Z then Raise ZeroDivisionError
  else Ok {| num_objects := n_objects;
             num_instances := (count root_physx_view / n_objects)%Z;
             _sim_timestamp := 0%float;
             _object_state_w := TimestampedBuffer_new;
             _object_acc_w := TimestampedBuffer_new |}.

(** [self._sim_timestamp += dt] *)
Definition update (self : RigidObjectCollectionData) (dt : float)
  : RigidObjectCollectionData :=
  {| num_objects := num_objects self;
     num_instances := num_instances self;
     _sim_timestamp := (_sim_timestamp self + dt)%float;
     _object_state_w := _object_state_w self;
     _object_acc_w := _object_acc_w self |}.

(** [torch.einsum("ijk -> jik", data.reshape(self.num_objects, self.num_instances, -1))] *)
Definition _view_to_data_order (self : RigidObjectCollectionData)
  (data : tensor2 A) : result (tensor3 A) :=
  result_map einsum_ijk_jik (reshape (num_objects self) (num_instances self) data).

(** *** Methods: a state, trace and exception monad

    A property of the container reads the view it holds a proxy of, may
    assign attributes of [self], and may raise.  Its outcome is what it
    returned or raised, the container afterwards, and the getters of the
    view it called, in order. *)
Record outcome (X : Type) : Type := {
  returned : result X;
  self_after : RigidObjectCollectionData;
  queried : list call
}.

Definition method (X : Type) : Type :=
  RigidBodyView A -> RigidObjectCollectionData -> outcome X.

Definition ret {X : Type} (x : X) : method X :=
  fun _ self => {| returned := Ok x; self_after := self; queried := [] |}.

Definition bind {X Y : Type} (m : method X) (k : X -> method Y) : method Y :=
  fun view self =>
    match m view self with
    | {| returned := Ok x; self_after := self'; queried := calls |} =>
        match k x view self' with
        | {| returned := r; self_after := self''; queried := calls' |} =>
            {| returned := r; self_after := self''; queried := calls ++ calls' |}
        end
    | {| returned := Raise e; self_after := self'; queried := calls |} =>
        {| returned := Raise e; self_after := self'; queried := calls |}
    end.

Definition lift {X : Type} (r : result X) : method X :=
  fun _ self => {| returned := r; self_after := self; queried := [] |}.

Definition get_self : method RigidObjectCollectionData :=
  fun _ self => {| returned := Ok self; self_after := self; queried := [] |}.

Definition _root_physx_view (c : call) : method (tensor2 A) :=
  fun view self =>
    {| returned := Ok match c with
                      | GetTransforms => get_transforms view
                      | GetVelocities => get_velocities view
                      | GetAccelerations => get_accelerations view
                      end;
       self_after := self;
       queried := [c] |}.

Definition with_object_state_w (self : RigidObjectCollectionData)
  (b : TimestampedBuffer A) : RigidObjectCollectionData :=
  {| num_objects := num_objects self;
     num_instances := num_instances self;
     _sim_timestamp := _sim_timestamp self;
     _object_state_w := b;
     _object_acc_w := _object_acc_w self |}.

Definition with_object_acc_w (self : RigidObjectCollectionData)
  (b : TimestampedBuffer A) : RigidObjectCollectionData :=
  {| num_objects := num_objects self;
     num_instances := num_instances self;
     _sim_timestamp := _sim_timestamp self;
     _object_state_w := _object_state_w self;
     _object_acc_w := b |}.

Definition set_object_state_w (b : TimestampedBuffer A) : method unit :=
  fun _ self =>
    {| returned := Ok tt; self_after := with_object_state_w self b; queried := [] |}.

Definition set_object_acc_w (b : TimestampedBuffer A) : method unit :=
  fun _ self =>
    {| returned := Ok tt; self_after := with_object_acc_w self b; queried := [] |}.

Notation "x <- m ;; k" := (bind m (fun x => k))
  (at level 61, m at next level, right associativity).
Notation "m ;;; k" := (bind m (fun _ => k))
  (at level 61, right associativity).

(** [self._object_state_w.data = d] and [self._object_state_w.timestamp = t] *)
Definition assign_state_data (d : tensor3 A) : method unit :=
  self <- get_self ;;
  set_object_state_w {| data := Some d; timestamp := timestamp (_object_state_w self) |}.

Definition assign_state_timestamp (t : float) : method unit :=
  self <- get_self ;;
  set_object_state_w {| data := data (_object_state_w self); timestamp := t |}.

Definition assign_acc_data (d : tensor3 A) : method unit :=
  self <- get_self ;;
  set_object_acc_w {| data := Some d; timestamp := timestamp (_object_acc_w self) |}.

Definition assign_acc_timestamp (t : float) : method unit :=
  self <- get_self ;;
  set_object_acc_w {| data := data (_object_acc_w self); timestamp := t |}.

(** *** The two cached properties *)

Definition object_state_w : method (option (tensor3 A)) :=
  self <- get_self ;;
  (if (timestamp (_object_state_w self) <? _sim_timestamp self)%float then
     transforms <- _root_physx_view GetTransforms ;;
     pose <- lift (_view_to_data_order self (clone transforms)) ;;
     quat <- lift (convert_quat (slice_last 3 7 pose) wxyz) ;;
     pose <- lift (assign_last 3 7 pose quat) ;;
     velocities <- _root_physx_view GetVelocities ;;
     velocity <- lift (_view_to_data_order self velocities) ;;
     state <- lift (cat_last pose velocity) ;;
     assign_state_data state ;;;
     assign_state_timestamp (_sim_timestamp self)
   else ret tt) ;;;
  self <- get_self ;;
  ret (data (_object_state_w self)).

Definition object_acc_w : method (option (tensor3 A)) :=
  self <- get_self ;;
  (if (timestamp (_object_acc_w self) <? _sim_timestamp self)%float then
     accelerations <- _root_physx_view GetAccelerations ;;
     acc <- lift (_view_to_data_order self (clone accelerations)) ;;
     assign_acc_data acc ;;;
     assign_acc_timestamp (_sim_timestamp self)
   else ret tt) ;;;
  self <- get_self ;;
  ret (data (_object_acc_w self)).

(** *** Derived properties: slices of the cached buffers

    [t[..., a:b]] on what the cached property returned; subscripting
    [None] raises. *)
Definition subscript_last (a b : nat) (t : option (tensor3 A)) : result (tensor3 A) :=
  match t with
  | Some t => Ok (slice_last a b t)
  | None => Raise TypeError
  end.

Definition object_pos_w : method (tensor3 A) :=
  t <- object_state_w ;; lift (subscript_last 0 3 t).

Definition object_quat_w : method (tensor3 A) :=
  t <- object_state_w ;; lift (subscript_last 3 7 t).

Definition object_vel_w : method (tensor3 A) :=
  t <- object_state_w ;; lift (subscript_last 7 13 t).

Definition object_lin_vel_w : method (tensor3 A) :=
  t <- object_state_w ;; lift (subscript_last 7 10 t).

Definition object_ang_vel_w : method (tensor3 A) :=
  t <- object_state_w ;; lift (subscript_last 10 13 t).

Definition object_lin_acc_w : method (tensor3 A) :=
  t <- object_acc_w ;; lift (subscript_last 0 3 t).

Definition object_ang_acc_w : method (tensor3 A) :=
  t <- object_acc_w ;; lift (subscript_last 3 6 t).

(** *** The vocabulary of the properties proved below *)

(** What a refresh computes from the buffers the view returns. *)
Definition pose_of_view (self : RigidObjectCollectionData) (view : RigidBodyView A)
  : result (tensor3 A) :=
  result_bind (_view_to_data_order self (clone (get_transforms view))) (fun pose =>
  result_bind (convert_quat (slice_last 3 7 pose) wxyz) (fun quat =>
  assign_last 3 7 pose quat)).

Definition state_of_view (self : RigidObjectCollectionData) (view : RigidBodyView A)
  : result (tensor3 A) :=
  result_bind (pose_of_view self view) (fun pose =>
  result_bind (_view_to_data_order self (get_velocities view)) (fun velocity =>
  cat_last pose velocity)).

Definition acc_of_view (self : RigidObjectCollectionData) (view : RigidBodyView A)
  : result (tensor3 A) :=
  _view_to_data_order self (clone (get_accelerations view)).

(** A pose row as the container stores it: position, then the quaternion
    with its last component moved to the front. *)
Definition pose_row (t : list A) : list A :=
  match t with
  | [px; py; pz; x; y; z; w] => [px; py; pz; w; x; y; z]
  | _ => t
  end.

(** The two cached quantities, uniformly. *)
Inductive quantity : Type := State | Acc.

Definition read (q : quantity) : method (option (tensor3 A)) :=
  match q with
  | State => object_state_w
  | Acc => object_acc_w
  end.

Definition cache (q : quantity) (self : RigidObjectCollectionData) : TimestampedBuffer A :=
  match q with
  | State => _object_state_w self
  | Acc => _object_acc_w self
  end.

Definition recompute (q : quantity) (self : RigidObjectCollectionData)
  (view : RigidBodyView A) : result (tensor3 A) :=
  match q with
  | State => state_of_view self view
  | Acc => acc_of_view self view
  end.

(** The documented number of components of a row of the quantity. *)
Definition width (q : quantity) : nat :=
  match q with
  | State => 13
  | Acc => 6
  end.

(** The getters one refresh of the quantity calls, in order. *)
Definition getters (q : quantity) : list call :=
  match q with
  | State => [GetTransforms; GetVelocities]
  | Acc => [GetAccelerations]
  end.

(** The cache is older than the simulation clock. *)
Definition stale (q : quantity) (self : RigidObjectCollectionData) : bool :=
  (timestamp (cache q self) <? _sim_timestamp self)%float.

(** The container after a successful refresh of [q] with data [d]. *)
Definition refreshed (q : quantity) (self : RigidObjectCollectionData)
  (d : tensor3 A) : RigidObjectCollectionData :=
  let b := {| data := Some d; timestamp := _sim_timestamp self |} in
  match q with
  | State => with_object_state_w self b
  | Acc => with_object_acc_w self b
  end.

(** How many recomputations a read started: the calls of the first getter
    of the quantity. *)
Definition call_eqb (c c' : call) : bool :=
  match c, c' with
  | GetTransforms, GetTransforms
  | GetVelocities, GetVelocities
  | GetAccelerations, GetAccelerations => true
  | _, _ => false
  end.

Definition recomputations (q : quantity) (calls : list call) : nat :=
  length (filter (call_eqb (hd GetTransforms (getters q))) calls).

(** A read that came back with a freshly written cache. *)
Definition completed_refresh {X : Type} (o : outcome X) : bool :=
  match returned o, queried o with
  | Ok _, _ :: _ => true
  | _, _ => false
  end.

(** The calls a refresh has made when it stops. *)
Definition calls_made (q : quantity) (s : RigidObjectCollectionData) (v : RigidBodyView A) : list call :=
  match q with
  | State =>
      match pose_of_view s v with
      | Ok _ => [GetTransforms; GetVelocities]
      | Raise _ => [GetTransforms]
      end
  | Acc => [GetAccelerations]
  end.

(** Every read is one of three things: a cache hit, a completed refresh,
    or a refresh that raised and left the container as it was. *)
Variant read_outcome (q : quantity) (v : RigidBodyView A) (s : RigidObjectCollectionData)
  : outcome (option (tensor3 A)) -> Prop :=
| read_hit :
    stale q s = false ->
    read_outcome q v s
      {| returned := Ok (data (cache q s)); self_after := s; queried := [] |}
| read_refresh (d : tensor3 A) :
    stale q s = true -> recompute q s v = Ok d ->
    read_outcome q v s
      {| returned := Ok (Some d); self_after := refreshed q s d; queried := getters q |}
| read_raise (e : exception) :
    stale q s = true -> recompute q s v = Raise e ->
    read_outcome q v s
      {| returned := Raise e; self_after := s; queried := calls_made q s v |}.

(** Invariants of the clock and the cache timestamps. *)
Definition clock_inv (s : RigidObjectCollectionData) : Prop :=
  Float64.nonneg (_sim_timestamp s) /\
  forall q, (timestamp (cache q s) <=? _sim_timestamp s)%float = true.

(** The properties sliced out of [object_state_w], read one after the
    other, each against the view of its moment. *)
Inductive state_property : Type := PosW | QuatW | VelW | LinVelW | AngVelW.

Definition read_property (p : state_property) : method (tensor3 A) :=
  match p with
  | PosW => object_pos_w
  | QuatW => object_quat_w
  | VelW => object_vel_w
  | LinVelW => object_lin_vel_w
  | AngVelW => object_ang_vel_w
  end.

(** The components [a:b] each property takes. *)
Definition components (p : state_property) : nat * nat :=
  match p with
  | PosW => (0, 3)
  | QuatW => (3, 7)
  | VelW => (7, 13)
  | LinVelW => (7, 10)
  | AngVelW => (10, 13)
  end.

Fixpoint read_properties (reads : list (state_property * RigidBodyView A))
  (self : RigidObjectCollectionData) : list (outcome (tensor3 A)) :=
  match reads with
  | [] => []
  | (p, view) :: rest =>
      let o := read_property p view self in
      o :: read_properties rest (self_after o)
  end.

Definition refreshes {X : Type} (os : list (outcome X)) : nat :=
  length (filter completed_refresh os).

(** Whatever a cache holds has the documented shape. *)
Definition cache_shaped (s : RigidObjectCollectionData) : Prop :=
  forall q d, data (cache q s) = Some d ->
    shape3 (Z.to_nat (num_instances s)) (Z.to_nat (num_objects s)) (width q) d = true.

(** Calls on the container, and the states they lead to.  The view a read
    meets is whatever the simulator holds at that moment. *)
Inductive action : Type :=
| Update (dt : float)
| Read (q : quantity) (view : RigidBodyView A).

Definition step (self : RigidObjectCollectionData) (a : action)
  : RigidObjectCollectionData :=
  match a with
  | Update dt => update self dt
  | Read q view => self_after (read q view self)
  end.

Definition run (self : RigidObjectCollectionData) (acts : list action)
  : RigidObjectCollectionData :=
  fold_left step acts self.

(** The view honours the layout the container documents: one row per
    (object, instance) pair, 7 pose, 6 velocity and 6 acceleration
    components. *)
Definition layout (self : RigidObjectCollectionData) (view : RigidBodyView A) : bool :=
  let rows := Z.to_nat (num_instances self * num_objects self) in
  shape2 rows 7 (get_transforms view)
  && shape2 rows 6 (get_velocities view)
  && shape2 rows 6 (get_accelerations view).

Definition honours_layout (self : RigidObjectCollectionData) (view : RigidBodyView A)
  : Prop :=
  layout self view = true.

(** Updates advance the clock by a positive step; reads meet views that
    satisfy [env]. *)
Definition admissible (env : RigidObjectCollectionData -> RigidBodyView A -> Prop)
  (self : RigidObjectCollectionData) (a : action) : Prop :=
  match a with
  | Update dt => Float64.positive_step dt
  | Read _ view => env self view
  end.

(** Calls that leave quantity [q] unread: updates with a positive step
    and reads of the other quantity. *)
Definition leaves_unread (q : quantity) (a : action) : Prop :=
  match a with
  | Update dt => Float64.positive_step dt
  | Read q' _ => q' <> q
  end.

Inductive reachable (env : RigidObjectCollectionData -> RigidBodyView A -> Prop)
  : RigidObjectCollectionData -> Prop :=
| reachable_init (view : RigidBodyView A) (n_objects : Z) (self : RigidObjectCollectionData) :
    __init__ view n_objects = Ok self -> reachable env self
| reachable_step (self : RigidObjectCollectionData) (a : action) :
    reachable env self -> admissible env self a -> reachable env (step self a).

(** The buffers a refresh of [q] reshapes can be cut into
    [num_objects * num_instances] blocks. *)
Definition divides_into (self : RigidObjectCollectionData) (t : tensor2 A) : bool :=
  (0 <? num_objects self)%Z && (0 <? num_instances self)%Z
  && (numel t mod (num_objects self * num_instances self) =? 0)%Z.

Definition fits (q : quantity) (self : RigidObjectCollectionData)
  (view : RigidBodyView A) : bool :=
  match q with
  | State => divides_into self (get_transforms view)
             && divides_into self (get_velocities view)
  | Acc => divides_into self (get_accelerations view)
  end.


End Data.
End Collection.

(** * Worked configurations *)

Module Examples.
Import Torch Physx MathUtils Buffers Collection.

(** The timestamp a new buffer starts with in the examples. *)
Definition new_timestamp : float := (-1)%float.

(** One instance of one object. *)
Definition view_1x1 : RigidBodyView Z :=
  {| count := 1;
     get_transforms := [[1; 2; 3; 4; 5; 6; 7]];
     get_velocities := [[8; 9; 10; 11; 12; 13]];
     get_accelerations := [[14; 15; 16; 17; 18; 19]] |}%Z.

Definition data_1x1 : @RigidObjectCollectionData Z :=
  {| num_objects := 1;
     num_instances := 1;
     _sim_timestamp := 0%float;
     _object_state_w := TimestampedBuffer_new new_timestamp;
     _object_acc_w := TimestampedBuffer_new new_timestamp |}.

(** Six bodies, used as 2 instances of 3 objects or 3 instances of 2: a
    buffer with one component per body, and a view of which the
    constructor reads the count. *)
Definition flat6 : tensor2 Z := [[0]; [1]; [2]; [3]; [4]; [5]]%Z.

Definition view_6 : RigidBodyView Z :=
  {| count := 6; get_transforms := []; get_velocities := []; get_accelerations := [] |}.


(** Three bodies handed to a collection of two objects. *)
Definition view_3 : RigidBodyView Z :=
  {| count := 3;
     get_transforms := [[1; 2; 3; 4; 5; 6; 7]; [11; 12; 13; 14; 15; 16; 17];
                        [21; 22; 23; 24; 25; 26; 27]];
     get_velocities := [[31; 32; 33; 34; 35; 36]; [41; 42; 43; 44; 45; 46];
                        [51; 52; 53; 54; 55; 56]];
     get_accelerations := [[61; 62; 63; 64; 65; 66]; [71; 72; 73; 74; 75; 76];
                           [81; 82; 83; 84; 85; 86]] |}%Z.

Definition data_3 : @RigidObjectCollectionData Z :=
  {| num_objects := 2;
     num_instances := 1;
     _sim_timestamp := 0%float;
     _object_state_w := TimestampedBuffer_new new_timestamp;
     _object_acc_w := TimestampedBuffer_new new_timestamp |}.

Definition any_view (_ : @RigidObjectCollectionData Z) (_ : RigidBodyView Z) : Prop := True.

End Examples.

(** * Properties in the body frame *)

Module Frames.
Import Torch Physx MathUtils Buffers Collection.

Section BodyFrame.
Context {A : Type}.

(** Modelled from the spec: [math_utils.quat_rotate_inverse] of
    [omni.isaac.lab.utils.math] is not among the source files.  The spec
    describes the frame functions as pure functions of their inputs
    ("rotate by a quaternion's inverse", applied across the batch); nothing
    else is assumed of it.  It is a parameter: any function of two tensors
    that returns a tensor or raises. *)
Variable quat_rotate_inverse : tensor3 A -> tensor3 A -> result (tensor3 A).

(** The attribute [GRAVITY_VEC_W], which the constructor computes from the
    simulator's gravity and no method assigns again. *)
Variable GRAVITY_VEC_W : tensor3 A.

(** [math_utils.quat_rotate_inverse(self.object_quat_w, self.GRAVITY_VEC_W)] *)
Definition projected_gravity_b : method (tensor3 A) :=
  bind object_quat_w (fun quat =>
  lift (quat_rotate_inverse quat GRAVITY_VEC_W)).

(** [math_utils.quat_rotate_inverse(self.object_quat_w, self.object_lin_vel_w)]:
    the arguments are evaluated from left to right, each a read of its
    property. *)
Definition object_lin_vel_b : method (tensor3 A) :=
  bind object_quat_w (fun quat =>
  bind object_lin_vel_w (fun vel =>
  lift (quat_rotate_inverse quat vel))).

(** [math_utils.quat_rotate_inverse(self.object_quat_w, self.object_ang_vel_w)] *)
Definition object_ang_vel_b : method (tensor3 A) :=
  bind object_quat_w (fun quat =>
  bind object_ang_vel_w (fun vel =>
  lift (quat_rotate_inverse quat vel))).

(** One read of [object_state_w] followed by a computation on the buffer
    it returned; subscripting [None] raises. *)
Definition computed_from_state (view : RigidBodyView A)
  (self : @RigidObjectCollectionData A) (f : tensor3 A -> result (tensor3 A))
  : outcome (tensor3 A) :=
  {| returned := result_bind (returned (object_state_w view self)) (fun t =>
                   match t with
                   | Some t => f t
                   | None => Raise TypeError
                   end);
     self_after := self_after (object_state_w view self);
     queried := queried (object_state_w view self) |}.

End BodyFrame.
End Frames.

(** * Calls outside the documented use, and buffers of any size *)

Module Calls.
Import Torch Physx MathUtils Buffers Collection.

Section Vocabulary.
Context {A : Type}.


(** [dt <= 0] on Python floats (false of NaN). *)
Definition nonpositive_step (dt : float) : Prop := (dt <=? 0)%float = true.

(** Block number [n] of [k] consecutive elements of a flat list. *)
Definition block (k n : nat) (l : list A) : list A := firstn k (skipn (n * k) l).

(** The number of components [_view_to_data_order] gives each (instance,
    object) pair of a buffer: the inferred last size of the reshape. *)
Definition components_per_pair (self : @RigidObjectCollectionData A) (t : tensor2 A) : nat :=
  Z.to_nat (numel t / (num_objects self * num_instances self)).

(** The number of components per pair of what a refresh produces. *)
Definition refreshed_width (q : quantity) (self : @RigidObjectCollectionData A)
  (view : RigidBodyView A) : nat :=
  match q with
  | State => components_per_pair self (get_transforms view)
             + components_per_pair self (get_velocities view)
  | Acc => components_per_pair self (get_accelerations view)
  end.

(** A pose row of any width after [pose[..., 3:7] = convert_quat(...)]:
    components 3 to 6 reordered, the others in place. *)
Definition requat (row : list A) : list A :=
  firstn 3 row ++ match slice 3 7 row with
                  | [x; y; z; w] => [w; x; y; z]
                  | _ => []
                  end ++ skipn 7 row.

(** Whatever a cache holds has the container's two leading sizes, and a
    cached state at least the 7 components of a pose. *)
Definition leading_sizes (s : @RigidObjectCollectionData A) : Prop :=
  forall q d, data (cache q s) = Some d ->
    exists w, shape3 (Z.to_nat (num_instances s)) (Z.to_nat (num_objects s)) w d = true /\
              (q = State -> 7 <= w).

Variable sentinel : float.


End Vocabulary.
End Calls.

(** * Further configurations *)

Module Scenarios.
Import Torch Physx MathUtils Buffers Collection Examples.


(** Two instances of three objects: the bodies of object 0 first, then
    those of object 1, then those of object 2. *)
Definition view_2x3 : RigidBodyView Z :=
  {| count := 6;
     get_transforms := map (fun b => [b; b; b; 1; 2; 3; 4]) [0; 1; 2; 3; 4; 5];
     get_velocities := map (fun b => [b; b; b; b; b; b]) [0; 1; 2; 3; 4; 5];
     get_accelerations := map (fun b => [b; b; b; b; b; b]) [0; 1; 2; 3; 4; 5] |}%Z.

Definition data_2x3 : @RigidObjectCollectionData Z :=
  {| num_objects := 3;
     num_instances := 2;
     _sim_timestamp := 0%float;
     _object_state_w := TimestampedBuffer_new new_timestamp;
     _object_acc_w := TimestampedBuffer_new new_timestamp |}.

End Scenarios.

(** * Binary64: order and addition

    The simulation clock is a Python float.  What the container relies on:
    [<] is irreflexive, the order is transitive on numbers, and adding a
    positive step to a non-negative time never moves it backwards (although
    it may leave it where it is).  These are proved from the specification
    of the primitive operations ([SpecFloat]). *)

Unset Implicit Arguments.

Module Float64Facts.
Import Float64.
Local Open Scope Z_scope.

(** ** Digits of a mantissa *)

Lemma digits2_pos_size m : digits2_pos m = Pos.size m.
Proof. induction m; simpl; congruence. Qed.

Lemma digits2_pos_bounds m :
  2 ^ (Zpos (digits2_pos m) - 1) <= Zpos m < 2 ^ Zpos (digits2_pos m).
Proof.
  rewrite digits2_pos_size.
  pose proof (Pos.size_gt m) as Hgt. pose proof (Pos.size_le m) as Hle.
  assert (E : Zpos (2 ^ Pos.size m) = 2 ^ Zpos (Pos.size m)) by apply Pos2Z.inj_pow.
  split; [|lia].
  assert (2 ^ Zpos (Pos.size m) = 2 * 2 ^ (Zpos (Pos.size m) - 1)).
  { rewrite <- Z.pow_succ_r by lia. f_equal. lia. }
  lia.
Qed.

Lemma digits2_pos_unique m d :
  2 ^ (d - 1) <= Zpos m < 2 ^ d -> Zpos (digits2_pos m) = d.
Proof.
  intros [Hlo Hhi]. pose proof (digits2_pos_bounds m) as [Blo Bhi].
  set (k := Zpos (digits2_pos m)) in *.
  assert (Hd : 0 < d).
  { destruct (Z_lt_le_dec 0 d) as [|Hd]; [assumption|].
    assert (2 ^ d <= 2 ^ 0)
      by (destruct (Z.eq_dec d 0) as [->|]; [lia|rewrite Z.pow_neg_r by lia; simpl; lia]).
    simpl in *. lia. }
  destruct (Z.lt_trichotomy k d) as [Hlt|[Heq|Hgt]]; [|assumption|].
  - assert (2 ^ k <= 2 ^ (d - 1)) by (apply Z.pow_le_mono_r; lia). lia.
  - assert (2 ^ d <= 2 ^ (k - 1)) by (apply Z.pow_le_mono_r; lia). lia.
Qed.

(** ** Shifts of the rounding record *)

Lemma shr_1_m r : 0 <= shr_m r -> shr_m (shr_1 r) = shr_m r / 2.
Proof.
  destruct r as [m b s]; simpl. intros Hm.
  destruct m as [|[p|p|]|p]; simpl; try reflexivity; try lia.
  - rewrite Pos2Z.inj_xI. apply Z.div_unique with 1; lia.
  - rewrite Pos2Z.inj_xO. apply Z.div_unique with 0; lia.
Qed.

Lemma iter_pos_shr_1_m p : forall r,
  0 <= shr_m r -> shr_m (iter_pos shr_1 p r) = shr_m r / 2 ^ Zpos p.
Proof.
  induction p as [p IH|p IH|]; intros r Hr; simpl iter_pos.
  - assert (H1 : 0 <= shr_m (shr_1 r))
      by (rewrite shr_1_m by assumption; apply Z.div_pos; lia).
    assert (H2 : 0 <= shr_m (iter_pos shr_1 p (shr_1 r)))
      by (rewrite IH by assumption; apply Z.div_pos; lia).
    rewrite IH, IH, shr_1_m by assumption.
    assert (E : 2 ^ Zpos p~1 = 2 * (2 ^ Zpos p * 2 ^ Zpos p)).
    { replace (Zpos p~1) with (1 + (Zpos p + Zpos p)) by lia.
      rewrite !Z.pow_add_r by lia. reflexivity. }
    rewrite E, !Z.div_div by lia. reflexivity.
  - assert (H2 : 0 <= shr_m (iter_pos shr_1 p r))
      by (rewrite IH by assumption; apply Z.div_pos; lia).
    rewrite IH, IH by assumption.
    assert (E : 2 ^ Zpos p~0 = 2 ^ Zpos p * 2 ^ Zpos p).
    { replace (Zpos p~0) with (Zpos p + Zpos p) by lia.
      rewrite Z.pow_add_r by lia. reflexivity. }
    rewrite E, !Z.div_div by lia. reflexivity.
  - rewrite shr_1_m by assumption. reflexivity.
Qed.

Lemma shl_align_fst mx ex ez :
  ez <= ex -> Zpos (fst (shl_align mx ex ez)) = Zpos mx * 2 ^ (ex - ez).
Proof.
  intros H. unfold shl_align.
  destruct (ez - ex) as [|d|d] eqn:E; try lia.
  - replace (ex - ez) with 0 by lia. simpl. lia.
  - simpl fst. replace (ex - ez) with (Zpos d) by lia.
    clear. revert mx. induction d using Pos.peano_ind; intros mx.
    + simpl. lia.
    + rewrite Pos.iter_succ.
      rewrite Pos2Z.inj_xO, IHd, Pos2Z.inj_succ, Z.pow_succ_r by lia. lia.
Qed.

Lemma shl_align_ge mx ex ex' : ex <= ex' -> shl_align mx ex ex' = (mx, ex).
Proof.
  intros H. unfold shl_align. destruct (ex' - ex) eqn:E; try reflexivity; lia.
Qed.

Lemma round_nearest_even_range m l :
  round_nearest_even m l = m \/ round_nearest_even m l = m + 1.
Proof. destruct l as [|[]]; simpl; auto. destruct (Z.even m); auto. Qed.

(** ** Rounding an exact positive value *)

Section Rounding.
Variables fprec femax : Z.
Hypothesis fprec_pos : 0 < fprec.

Lemma fexp_spec e : SpecFloat.fexp fprec femax e = Z.max (e - fprec) (SpecFloat.emin fprec femax).
Proof using. reflexivity. Qed.

Lemma fexp_mono e e' : e <= e' -> SpecFloat.fexp fprec femax e <= SpecFloat.fexp fprec femax e'.
Proof using. rewrite !fexp_spec. lia. Qed.

Lemma bounded_canonical m e :
  bounded fprec femax m e = true -> SpecFloat.fexp fprec femax (Zpos (digits2_pos m) + e) = e.
Proof using.
  unfold bounded, canonical_mantissa. intros H.
  apply andb_true_iff in H as [H _]. now apply Z.eqb_eq in H.
Qed.

Lemma shr_fexp_exact m e :
  0 < m -> e <= SpecFloat.fexp fprec femax (Zdigits2 m + e) ->
  exists R, shr_fexp fprec femax m e loc_Exact = (R, SpecFloat.fexp fprec femax (Zdigits2 m + e))
    /\ shr_m R = m / 2 ^ (SpecFloat.fexp fprec femax (Zdigits2 m + e) - e)
    /\ (SpecFloat.fexp fprec femax (Zdigits2 m + e) = e -> R = Build_shr_record m false false).
Proof using.
  intros Hm He. unfold shr_fexp, shr.
  set (e1 := SpecFloat.fexp fprec femax (Zdigits2 m + e)) in *. simpl shr_record_of_loc.
  destruct (e1 - e) as [|p|p] eqn:E; try lia.
  - exists (Build_shr_record m false false). simpl.
    rewrite Z.div_1_r. repeat split. f_equal. lia.
  - exists (iter_pos shr_1 p (Build_shr_record m false false)).
    rewrite iter_pos_shr_1_m by (simpl; lia). simpl.
    repeat split; [f_equal; lia | intros; lia].
Qed.

(** Rounding to nearest of [ms * 2^ez], when [ez] is not above the
    exponent of the format: infinity, or a float whose exponent is the
    format's and whose mantissa is at least the truncated one (or whose
    exponent is larger still). *)
Lemma binary_round_aux_exact_pos ms ez :
  SpecFloat.emin fprec femax <= ez -> ez <= SpecFloat.fexp fprec femax (Zpos (digits2_pos ms) + ez) ->
  let r := binary_round_aux fprec femax false (Zpos ms) ez loc_Exact in
  let e1 := SpecFloat.fexp fprec femax (Zpos (digits2_pos ms) + ez) in
  r = S754_infinity false \/
  exists m e, r = S754_finite false m e /\
    (e1 < e \/ (e = e1 /\ Zpos ms / 2 ^ (e1 - ez) <= Zpos m)).
Proof using fprec_pos.
  intros Hmin He r e1. subst r. unfold binary_round_aux.
  destruct (shr_fexp_exact (Zpos ms) ez) as (R1 & E1 & M1 & X1); [lia | exact He |].
  simpl Zdigits2 in *. fold e1 in E1, M1, X1.
  assert (E1' : shr_fexp fprec femax (Zpos ms) ez loc_Exact = (R1, e1)) by exact E1.
  rewrite E1'. clear E1 E1'.
  set (m1 := round_nearest_even (shr_m R1) (loc_of_shr_record R1)).
  pose proof (digits2_pos_bounds ms) as [Dlo Dhi].
  set (d := Zpos (digits2_pos ms)) in *.
  assert (Hm1 : (m1 = Zpos ms /\ e1 = ez) \/
                (ez < e1 /\ Zpos ms / 2 ^ (e1 - ez) <= m1 /\
                 2 ^ (fprec - 1) <= m1 <= 2 ^ fprec)).
  { destruct (Z.eq_dec e1 ez) as [Heq|Hne].
    - left. subst m1. rewrite (X1 Heq). simpl. auto.
    - right. assert (Hlt : ez < e1) by (fold e1 in He; lia).
      assert (Ee1 : e1 = d + ez - fprec).
      { pose proof (fexp_spec (d + ez)) as Hs. fold e1 in Hs. lia. }
      assert (En : e1 - ez = d - fprec) by lia.
      rewrite En in *.
      assert (P1 : 2 ^ d = 2 ^ fprec * 2 ^ (d - fprec)).
      { rewrite <- Z.pow_add_r by lia. f_equal. lia. }
      assert (P2 : 2 ^ (d - 1) = 2 ^ (fprec - 1) * 2 ^ (d - fprec)).
      { rewrite <- Z.pow_add_r by lia. f_equal. lia. }
      assert (Ppos : 0 < 2 ^ (d - fprec)) by (apply Z.pow_pos_nonneg; lia).
      assert (B1 : 2 ^ (fprec - 1) <= shr_m R1).
      { rewrite M1. apply Z.div_le_lower_bound; lia. }
      assert (B2 : shr_m R1 < 2 ^ fprec).
      { rewrite M1. apply Z.div_lt_upper_bound; lia. }
      rewrite <- M1.
      destruct (round_nearest_even_range (shr_m R1) (loc_of_shr_record R1)) as [Hr|Hr];
        fold m1 in Hr; lia. }
  assert (Ppp : 0 < 2 ^ (fprec - 1)) by (apply Z.pow_pos_nonneg; lia).
  assert (Hpos1 : 0 < m1) by (destruct Hm1 as [[-> _]|(_ & _ & ?)]; lia).
  assert (Hfe : (SpecFloat.fexp fprec femax (Zdigits2 m1 + e1) = e1 /\ (e1 = ez \/ m1 < 2 ^ fprec))
             \/ (SpecFloat.fexp fprec femax (Zdigits2 m1 + e1) = e1 + 1 /\ m1 = 2 ^ fprec /\ ez < e1)).
  { destruct Hm1 as [[-> Heq]|(Hlt & Hge & Hlo & Hhi)].
    - left. split; [|auto]. simpl Zdigits2. rewrite Heq. fold d. fold e1. exact Heq.
    - destruct m1 as [|q|q] eqn:Eq; try lia. simpl Zdigits2.
      assert (SpecFloat.emin fprec femax < e1) by lia.
      destruct (Z.eq_dec (Zpos q) (2 ^ fprec)) as [Hc|Hc].
      + right. rewrite (digits2_pos_unique q (fprec + 1)).
        * rewrite fexp_spec. repeat split; [lia|assumption|assumption].
        * replace (fprec + 1 - 1) with fprec by lia.
          rewrite Z.pow_add_r by lia. simpl (2 ^ 1). lia.
      + left. rewrite (digits2_pos_unique q fprec) by lia.
        rewrite fexp_spec. split; [lia|right; lia]. }
  destruct (shr_fexp_exact m1 e1) as (R2 & E2 & M2 & _);
    [exact Hpos1 | destruct Hfe as [[-> _]|[-> _]]; lia |].
  rewrite E2. clear E2.
  destruct Hfe as [[Hf Hc]|(Hf & Hc & Hlt)]; rewrite Hf in *.
  - replace (e1 - e1) with 0 in M2 by lia. simpl in M2. rewrite Z.div_1_r in M2.
    rewrite M2. destruct m1 as [|q|q] eqn:Eq; try lia.
    destruct (e1 <=? femax - fprec); [right|left; reflexivity].
    exists q, e1. split; [reflexivity|]. right. split; [reflexivity|].
    destruct Hm1 as [[Hq Heq]|(_ & Hge & _)].
    + rewrite Heq, Z.sub_diag. simpl. rewrite Z.div_1_r. lia.
    + exact Hge.
  - replace (e1 + 1 - e1) with 1 in M2 by lia. rewrite Hc in M2.
    replace fprec with (1 + (fprec - 1)) in M2 at 1 by lia.
    rewrite Z.pow_add_r in M2 by lia. simpl (2 ^ 1) in M2.
    rewrite Z.mul_comm, Z.div_mul in M2 by lia.
    rewrite M2. destruct (2 ^ (fprec - 1)) as [|q|q] eqn:Eq; try lia.
    destruct (e1 + 1 <=? femax - fprec); [right|left; reflexivity].
    exists q, (e1 + 1). split; [reflexivity|]. left. lia.
Qed.

(** The sum of two positive floats is infinity or a float that compares
    at least as large as the first. *)
Lemma SFadd_finite_pos mx ex my ey :
  bounded fprec femax mx ex = true -> bounded fprec femax my ey = true ->
  let r := SFadd fprec femax (S754_finite false mx ex) (S754_finite false my ey) in
  r = S754_infinity false \/
  exists m e, r = S754_finite false m e /\ (ex < e \/ (e = ex /\ (mx <= m)%positive)).
Proof using fprec_pos.
  intros Bx By r. subst r.
  apply bounded_canonical in Bx, By.
  assert (Mx : SpecFloat.emin fprec femax <= ex).
  { pose proof (fexp_spec (Zpos (digits2_pos mx) + ex)) as Hs. rewrite Bx in Hs. lia. }
  assert (My : SpecFloat.emin fprec femax <= ey).
  { pose proof (fexp_spec (Zpos (digits2_pos my) + ey)) as Hs. rewrite By in Hs. lia. }
  unfold SFadd. set (ez := Z.min ex ey).
  assert (Hzx : ez <= ex) by apply Z.le_min_l.
  assert (Hzy : ez <= ey) by apply Z.le_min_r.
  assert (Hzm : SpecFloat.emin fprec femax <= ez) by (unfold ez; lia).
  pose proof (shl_align_fst mx ex ez Hzx) as Ax.
  pose proof (shl_align_fst my ey ez Hzy) as Ay.
  set (a := fst (shl_align mx ex ez)) in *. set (b := fst (shl_align my ey ez)) in *.
  cbn [cond_Zopp Z.add binary_normalize]. unfold binary_round.
  set (ms := (a + b)%positive).
  assert (Hms : Zpos ms = Zpos mx * 2 ^ (ex - ez) + Zpos my * 2 ^ (ey - ez))
    by (unfold ms; lia).
  assert (Px : 0 < 2 ^ (ex - ez)) by (apply Z.pow_pos_nonneg; lia).
  assert (Py : 0 < 2 ^ (ey - ez)) by (apply Z.pow_pos_nonneg; lia).
  assert (Hd : Zpos (digits2_pos mx) + ex <= Zpos (digits2_pos ms) + ez).
  { pose proof (digits2_pos_bounds mx) as [Lx _].
    pose proof (digits2_pos_bounds ms) as [_ Us].
    destruct (Z_lt_le_dec (Zpos (digits2_pos ms) + ez) (Zpos (digits2_pos mx) + ex))
      as [Hlt|]; [|assumption].
    exfalso.
    assert (Hp : 2 ^ Zpos (digits2_pos ms) <= 2 ^ (Zpos (digits2_pos mx) - 1 + (ex - ez)))
      by (apply Z.pow_le_mono_r; lia).
    rewrite Z.pow_add_r in Hp by lia.
    assert (2 ^ (Zpos (digits2_pos mx) - 1) * 2 ^ (ex - ez) <= Zpos mx * 2 ^ (ex - ez))
      by (apply Z.mul_le_mono_nonneg_r; lia).
    nia. }
  pose proof (fexp_mono _ _ Hd) as Hf. rewrite Bx in Hf.
  rewrite shl_align_ge by lia.
  destruct (binary_round_aux_exact_pos ms ez) as [Hr|(m & e & Hr & Hcmp)];
    [lia | lia | left; exact Hr |].
  right. exists m, e. split; [exact Hr|].
  destruct Hcmp as [Hlt|[He Hm]]; [left; lia|].
  destruct (Z.eq_dec e ex) as [Heq|Hne]; [right|left; lia].
  split; [assumption|]. rewrite He in Heq. rewrite Heq in Hm.
  assert (Zpos mx <= Zpos ms / 2 ^ (ex - ez)) by (apply Z.div_le_lower_bound; nia).
  lia.
Qed.

End Rounding.
(** ** The order on specification floats *)

Ltac cmp_cases :=
  repeat match goal with
  | H : context [Pos.compare_cont Eq ?a ?b] |- _ =>
      change (Pos.compare_cont Eq a b) with (Pos.compare a b) in H
  | |- context [Pos.compare_cont Eq ?a ?b] =>
      change (Pos.compare_cont Eq a b) with (Pos.compare a b)
  end;
  repeat match goal with
  | H : context [Z.compare ?a ?b] |- _ => destruct (Z.compare_spec a b); simpl in H
  | H : context [Pos.compare ?a ?b] |- _ => destruct (Pos.compare_spec a b); simpl in H
  | |- context [Z.compare ?a ?b] => destruct (Z.compare_spec a b); simpl
  | |- context [Pos.compare ?a ?b] => destruct (Pos.compare_spec a b); simpl
  end;
  try discriminate; try reflexivity; try lia.

Ltac by_float_cases x y z :=
  destruct x as [[]|[]| |[] ? ?], y as [[]|[]| |[] ? ?], z as [[]|[]| |[] ? ?];
  simpl; intros; try discriminate; try reflexivity; cmp_cases.

Lemma SFltb_irrefl x : SFltb x x = false.
Proof.
  destruct x as [s|s| |s m e]; try destruct s; unfold SFltb; simpl; try reflexivity.
  all: rewrite Z.compare_refl; change (Pos.compare_cont Eq m m) with (Pos.compare m m);
    rewrite Pos.compare_refl; reflexivity.
Qed.

Lemma SFltb_leb x y : SFltb x y = true -> SFleb x y = true.
Proof. unfold SFltb, SFleb. destruct (SFcompare x y) as [[]|]; congruence. Qed.

Lemma SFleb_refl_r x y : SFleb x y = true -> SFleb y y = true.
Proof.
  unfold SFleb. destruct x as [[]|[]| |[] mx ex], y as [[]|[]| |[] my ey];
    simpl; intros; try discriminate; try reflexivity;
    rewrite Z.compare_refl; change (Pos.compare_cont Eq my my) with (Pos.compare my my);
    rewrite Pos.compare_refl; reflexivity.
Qed.

Lemma SFleb_trans x y z : SFleb x y = true -> SFleb y z = true -> SFleb x z = true.
Proof. unfold SFleb. by_float_cases x y z. Qed.

Lemma SFleb_ltb_trans x y z : SFleb x y = true -> SFltb y z = true -> SFltb x z = true.
Proof. unfold SFleb, SFltb. by_float_cases x y z. Qed.

Lemma SFltb_leb_trans x y z : SFltb x y = true -> SFleb y z = true -> SFltb x z = true.
Proof. unfold SFleb, SFltb. by_float_cases x y z. Qed.

Lemma SFadd_mono_pos x dt :
  valid_binary x = true -> valid_binary dt = true ->
  SFleb (S754_zero false) x = true -> SFltb (S754_zero false) dt = true ->
  SFleb x (SF64add x dt) = true.
Proof.
  intros Vx Vd Hx Hd.
  destruct x as [sx|[]| |[] mx ex]; try discriminate Hx;
  destruct dt as [sd|[]| |[] md ed]; try discriminate Hd; try reflexivity.
  simpl in Vx, Vd. unfold SF64add.
  destruct (SFadd_finite_pos prec emax ltac:(reflexivity) mx ex md ed Vx Vd)
    as [->|(m & e & -> & Hc)]; [reflexivity|].
  unfold SFleb. simpl. destruct Hc as [Hlt|[-> Hm]].
  - apply Z.compare_lt_iff in Hlt. rewrite Hlt. reflexivity.
  - rewrite Z.compare_refl. change (Pos.compare_cont Eq mx m) with (Pos.compare mx m).
    destruct (Pos.compare_spec mx m); try reflexivity. lia.
Qed.

(** ** The same facts on Python floats *)

Local Open Scope float_scope.

Lemma ltb_irrefl x : (x <? x) = false.
Proof. rewrite ltb_spec. apply SFltb_irrefl. Qed.

Lemma ltb_leb x y : (x <? y) = true -> (x <=? y) = true.
Proof. rewrite ltb_spec, leb_spec. apply SFltb_leb. Qed.

Lemma leb_refl_r x y : (x <=? y) = true -> (y <=? y) = true.
Proof. rewrite !leb_spec. apply SFleb_refl_r. Qed.

Lemma leb_trans x y z : (x <=? y) = true -> (y <=? z) = true -> (x <=? z) = true.
Proof. rewrite !leb_spec. apply SFleb_trans. Qed.

Lemma leb_ltb_trans x y z : (x <=? y) = true -> (y <? z) = true -> (x <? z) = true.
Proof. rewrite !leb_spec, !ltb_spec. apply SFleb_ltb_trans. Qed.

Lemma ltb_leb_trans x y z : (x <? y) = true -> (y <=? z) = true -> (x <? z) = true.
Proof. rewrite !leb_spec, !ltb_spec. apply SFltb_leb_trans. Qed.

(** A positive step never moves a non-negative clock backwards. *)
Lemma add_mono_pos x dt : nonneg x -> positive_step dt -> (x <=? x + dt) = true.
Proof.
  unfold nonneg, positive_step.
  rewrite !leb_spec, ltb_spec, add_spec.
  change (Prim2SF 0) with (S754_zero false).
  apply SFadd_mono_pos; apply Prim2SF_valid.
Qed.

Lemma add_nonneg x dt : nonneg x -> positive_step dt -> nonneg (x + dt).
Proof.
  intros Hx Hd. unfold nonneg. apply leb_trans with x; [exact Hx|].
  now apply add_mono_pos.
Qed.

(** Sums of positive steps: [0.0 + x] is [x] itself. *)
Lemma zero_or_positive_add x dt :
  zero_or_positive x -> positive_step dt -> zero_or_positive (x + dt).
Proof.
  unfold zero_or_positive, positive_step. rewrite ltb_spec, add_spec.
  change (Prim2SF 0) with (S754_zero false).
  pose proof (Prim2SF_valid x) as Vx. pose proof (Prim2SF_valid dt) as Vd.
  destruct (Prim2SF x) as [[]|[]| |[] mx ex]; try contradiction; intros _;
    destruct (Prim2SF dt) as [[]|[]| |[] md ed]; try discriminate; intros _;
    try exact I.
  simpl in Vx, Vd. unfold SF64add.
  destruct (SFadd_finite_pos prec emax ltac:(reflexivity) mx ex md ed Vx Vd)
    as [->|(m & e & -> & _)]; exact I.
Qed.

Lemma zero_add x : zero_or_positive x -> (0 + x = x)%float.
Proof.
  unfold zero_or_positive. intros H. apply Prim2SF_inj. rewrite add_spec.
  change (Prim2SF 0) with (S754_zero false).
  destruct (Prim2SF x) as [[]|[]| |[] mx ex]; try contradiction; reflexivity.
Qed.

Lemma running_sum_zero_or_positive (dts : list float) : forall x,
  zero_or_positive x -> Forall positive_step dts ->
  zero_or_positive (fold_left PrimFloat.add dts x).
Proof.
  induction dts as [|dt dts IH]; intros x Hx Hd; [exact Hx|].
  inversion Hd as [|? ? Hdt Hrest]; subst. simpl.
  apply IH; [|assumption]. now apply zero_or_positive_add.
Qed.

End Float64Facts.

(** * Facts about the tensor operations *)

Module TorchFacts.
Import Torch.

Section Lists.
Context {X : Type}.

Lemma concat_length_rect (k : nat) (t : list (list X)) :
  Forall (fun row => length row = k) t -> length (concat t) = length t * k.
Proof.
  induction 1 as [|row t Hrow _ IH]; simpl; [reflexivity|].
  rewrite length_app, IH, Hrow. reflexivity.
Qed.

Lemma firstn_concat_rect (k : nat) (t : list (list X)) :
  Forall (fun row => length row = k) t ->
  forall n, firstn (n * k) (concat t) = concat (firstn n t).
Proof.
  induction 1 as [|row t Hrow _ IH]; intros [|n]; simpl; try reflexivity.
  - now rewrite firstn_nil.
  - rewrite <- Hrow at 1. rewrite firstn_app_2, IH. reflexivity.
Qed.

Lemma skipn_concat_rect (k : nat) (t : list (list X)) :
  Forall (fun row => length row = k) t ->
  forall n, skipn (n * k) (concat t) = concat (skipn n t).
Proof.
  induction 1 as [|row t Hrow _ IH]; intros [|n]; simpl; try reflexivity.
  - now rewrite skipn_nil.
  - subst k. rewrite skipn_app, (skipn_all2 row) by lia.
    replace (length row + n * length row - length row) with (n * length row) by lia.
    simpl. apply IH.
Qed.

Lemma Forall_firstn {Y : Type} (P : Y -> Prop) (n : nat) (l : list Y) :
  Forall P l -> Forall P (firstn n l).
Proof.
  intros H. revert n. induction H; intros [|n]; simpl; constructor; auto.
Qed.

Lemma Forall_skipn {Y : Type} (P : Y -> Prop) (n : nat) (l : list Y) :
  Forall P l -> Forall P (skipn n l).
Proof.
  intros H. revert n. induction H; intros [|n]; simpl; auto.
Qed.

(** Cutting the concatenation of [n] rows of width [k] gives the rows back. *)
Lemma chunks_concat_rows (k : nat) : forall (n : nat) (t : list (list X)),
  length t = n -> Forall (fun row => length row = k) t ->
  chunks n k (concat t) = t.
Proof.
  induction n as [|n IH]; intros [|row t] Hlen Hrows; simpl in *; try discriminate;
    [reflexivity|].
  inversion Hrows as [|? ? Hrow Hrest]; subst.
  rewrite firstn_app, Nat.sub_diag, firstn_all, firstn_O, app_nil_r.
  rewrite skipn_app, Nat.sub_diag, skipn_all, skipn_O. simpl.
  rewrite IH; [reflexivity|lia|assumption].
Qed.

(** Reshaping to (d0, d1, k) groups the rows by [d1]. *)
Lemma chunks_regroup (d1 k : nat) : forall (d0 : nat) (t : list (list X)),
  length t = d0 * d1 -> Forall (fun row => length row = k) t ->
  map (chunks d1 k) (chunks d0 (d1 * k) (concat t)) = chunks d0 d1 t.
Proof.
  induction d0 as [|d0 IH]; intros t Hlen Hrows; simpl; [reflexivity|].
  rewrite firstn_concat_rect, skipn_concat_rect by assumption.
  rewrite chunks_concat_rows.
  - f_equal. apply IH.
    + rewrite length_skipn. simpl in Hlen. lia.
    + now apply Forall_skipn.
  - rewrite length_firstn. simpl in Hlen. lia.
  - now apply Forall_firstn.
Qed.

Lemma nth_firstn_skipn (d1 m i : nat) (t : list X) (d : X) :
  i < d1 -> nth i (firstn d1 (skipn m t)) d = nth (m + i) t d.
Proof.
  intros Hi. rewrite nth_firstn.
  destruct (Nat.ltb_spec i d1); [|lia]. apply nth_skipn.
Qed.

Lemma chunks_tabulate (k : nat) : forall (n : nat) (l : list X),
  chunks n k l = map (fun j => firstn k (skipn (j * k) l)) (seq 0 n).
Proof.
  induction n as [|n IH]; intros l; [reflexivity|].
  cbn [chunks seq map]. f_equal. rewrite IH, <- seq_shift, map_map.
  apply map_ext. intros j. rewrite skipn_skipn. f_equal. f_equal. simpl. lia.
Qed.

Lemma nth_map_seq {Y : Type} (f : nat -> Y) (n i : nat) (d : Y) :
  i < n -> nth i (map f (seq 0 n)) d = f i.
Proof.
  intros Hi. rewrite (nth_indep _ d (f 0)) by (now rewrite length_map, length_seq).
  rewrite map_nth, seq_nth by assumption. reflexivity.
Qed.

Lemma map_ext_seq {Y : Type} (f g : nat -> Y) (n : nat) :
  (forall i, i < n -> f i = g i) -> map f (seq 0 n) = map g (seq 0 n).
Proof.
  intros H. apply map_ext_in. intros i Hi. apply in_seq in Hi. apply H. lia.
Qed.

(** [map_m] and [zip_with_m] over lists built from the same indices. *)
Lemma map_m_map {Y W V : Type} (g : Y -> result W) (f : V -> Y) (h : V -> W) (l : list V) :
  (forall x, In x l -> g (f x) = Ok (h x)) -> map_m g (map f l) = Ok (map h l).
Proof.
  induction l as [|x l IH]; intros H; simpl; [reflexivity|].
  rewrite H by (now left). simpl. rewrite IH by (intros; apply H; now right).
  reflexivity.
Qed.

Lemma zip_with_m_map {Y Y' W V : Type} (g : Y -> Y' -> result W)
  (f : V -> Y) (f' : V -> Y') (h : V -> W) (l : list V) :
  (forall x, In x l -> g (f x) (f' x) = Ok (h x)) ->
  zip_with_m g (map f l) (map f' l) = Ok (map h l).
Proof.
  induction l as [|x l IH]; intros H; simpl; [reflexivity|].
  rewrite H by (now left). simpl. rewrite IH by (intros; apply H; now right).
  reflexivity.
Qed.

End Lists.
Section TensorFacts.
Context {A : Type}.

Lemma shape2_spec (n k : nat) (t : tensor2 A) :
  shape2 n k t = true <-> length t = n /\ Forall (fun row => length row = k) t.
Proof.
  unfold shape2. rewrite andb_true_iff, Nat.eqb_eq, forallb_forall, Forall_forall.
  split; intros [Hn Hr]; split; auto; intros row Hin.
  - now apply Nat.eqb_eq, Hr.
  - now apply Nat.eqb_eq, Hr.
Qed.

Lemma shape3_spec (d0 d1 k : nat) (t : tensor3 A) :
  shape3 d0 d1 k t = true <->
  length t = d0 /\ Forall (fun plane => shape2 d1 k plane = true) t.
Proof.
  unfold shape3. rewrite andb_true_iff, Nat.eqb_eq, forallb_forall, Forall_forall.
  reflexivity.
Qed.

Lemma numel_shape2 (n k : nat) (t : tensor2 A) :
  shape2 n k t = true -> numel t = Z.of_nat (n * k).
Proof.
  intros H. apply shape2_spec in H as [Hn Hr]. unfold numel.
  now rewrite (concat_length_rect k t Hr), Hn.
Qed.

(** [reshape] succeeds exactly when both sizes are positive and their
    product divides the number of elements. *)
Lemma reshape_ok_iff (d0 d1 : Z) (t : tensor2 A) :
  (exists r, reshape d0 d1 t = Ok r) <->
  (0 < d0 /\ 0 < d1 /\ numel t mod (d0 * d1) = 0)%Z.
Proof.
  unfold reshape.
  destruct (Z.ltb_spec d0 0), (Z.ltb_spec d1 0); simpl;
    try (split; [intros [r Hr]; discriminate | intros; lia]).
  destruct (Z.ltb_spec 0 (d0 * d1)); simpl;
    [|split; [intros [r Hr]; discriminate | intros; nia]].
  destruct (Z.eqb_spec (numel t mod (d0 * d1)) 0).
  - split; [intros _; repeat split; nia | eauto].
  - split; [intros [r Hr]; discriminate | intros; lia].
Qed.

Lemma reshape_raises (d0 d1 : Z) (t : tensor2 A) :
  ~ (0 < d0 /\ 0 < d1 /\ numel t mod (d0 * d1) = 0)%Z ->
  reshape d0 d1 t = Raise RuntimeError.
Proof.
  intros H. destruct (reshape d0 d1 t) as [r|e] eqn:E.
  - exfalso. apply H, reshape_ok_iff. eauto.
  - unfold reshape in E.
    destruct ((d0 <? 0)%Z || (d1 <? 0)%Z); [congruence|].
    destruct ((0 <? d0 * d1)%Z && (numel t mod (d0 * d1) =? 0)%Z); congruence.
Qed.

(** On a buffer with one row per (object, instance) pair, reshaping groups
    the rows of each object. *)
Lemma reshape_rows (d0 d1 : Z) (k : nat) (t : tensor2 A) :
  (0 < d0)%Z -> (0 < d1)%Z -> shape2 (Z.to_nat (d0 * d1)) k t = true ->
  reshape d0 d1 t = Ok (chunks (Z.to_nat d0) (Z.to_nat d1) t).
Proof.
  intros H0 H1 Hs. pose proof (numel_shape2 _ _ _ Hs) as Hn.
  apply shape2_spec in Hs as [Hlen Hrows].
  assert (Hm : Z.to_nat (d0 * d1) = Z.to_nat d0 * Z.to_nat d1)
    by (apply Z2Nat.inj_mul; lia).
  assert (Hz : numel t = (d0 * d1 * Z.of_nat k)%Z).
  { rewrite Hn, Nat2Z.inj_mul, Z2Nat.id by nia. reflexivity. }
  unfold reshape.
  destruct (Z.ltb_spec d0 0); [lia|]. destruct (Z.ltb_spec d1 0); [lia|]. simpl.
  destruct (Z.ltb_spec 0 (d0 * d1)); [|nia]. simpl.
  rewrite Hz, Z.mul_comm, Z.mod_mul by nia. simpl.
  rewrite Z.div_mul by nia. rewrite Nat2Z.id.
  f_equal. apply chunks_regroup; [lia|assumption].
Qed.

(** ** Slices along the last axis *)

Lemma firstn_plus (n m : nat) : forall l : list A,
  firstn (n + m) l = firstn n l ++ firstn m (skipn n l).
Proof.
  induction n as [|n IH]; intros [|x l]; simpl; try reflexivity.
  - now rewrite firstn_nil.
  - now rewrite IH.
Qed.

Lemma slice_app (a b c : nat) (row : list A) :
  a <= b <= c -> slice a b row ++ slice b c row = slice a c row.
Proof.
  intros [Hab Hbc]. unfold slice.
  replace (c - a) with ((b - a) + (c - b)) by lia.
  rewrite firstn_plus, skipn_skipn. do 3 f_equal. lia.
Qed.

Lemma cat_last_slices (a b c : nat) (t : tensor3 A) :
  a <= b <= c -> cat_last (slice_last a b t) (slice_last b c t) = Ok (slice_last a c t).
Proof.
  intros H. unfold cat_last, slice_last.
  apply (zip_with_m_map _ (map (slice a b)) (map (slice b c)) (map (slice a c))).
  intros plane _.
  apply (zip_with_m_map _ (slice a b) (slice b c) (slice a c)).
  intros row _. now rewrite slice_app.
Qed.

Lemma slice_last_all (d0 d1 k b : nat) (t : tensor3 A) :
  shape3 d0 d1 k t = true -> k <= b -> slice_last 0 b t = t.
Proof.
  intros Hs Hk. apply shape3_spec in Hs as [_ Hp]. unfold slice_last.
  rewrite <- (map_id t) at 2. apply map_ext_in. intros plane Hin.
  rewrite Forall_forall in Hp. apply Hp, shape2_spec in Hin as [_ Hr].
  rewrite <- (map_id plane) at 2. apply map_ext_in. intros row Hrow.
  rewrite Forall_forall in Hr. apply Hr in Hrow.
  unfold slice. rewrite Nat.sub_0_r, skipn_O. apply firstn_all2. lia.
Qed.

(** ** Tabulated tensors *)

Lemma tabulate3_nth (d0 d1 : nat) (f : nat -> nat -> list A) (i j : nat) :
  i < d0 -> j < d1 -> nth j (nth i (tabulate3 d0 d1 f) []) [] = f i j.
Proof.
  intros Hi Hj. unfold tabulate3. now rewrite nth_map_seq, nth_map_seq.
Qed.

Lemma tabulate3_shape (d0 d1 k : nat) (f : nat -> nat -> list A) :
  (forall i j, i < d0 -> j < d1 -> length (f i j) = k) ->
  shape3 d0 d1 k (tabulate3 d0 d1 f) = true.
Proof.
  intros H. apply shape3_spec. unfold tabulate3.
  split; [now rewrite length_map, length_seq|].
  apply Forall_forall. intros plane Hp. apply in_map_iff in Hp as (i & <- & Hi).
  apply in_seq in Hi. apply shape2_spec.
  split; [now rewrite length_map, length_seq|].
  apply Forall_forall. intros row Hr. apply in_map_iff in Hr as (j & <- & Hj).
  apply in_seq in Hj. apply H; lia.
Qed.

Lemma slice_last_tabulate3 (a b d0 d1 : nat) (f : nat -> nat -> list A) :
  slice_last a b (tabulate3 d0 d1 f) = tabulate3 d0 d1 (fun i j => slice a b (f i j)).
Proof.
  unfold slice_last, tabulate3. rewrite map_map. apply map_ext. intros i.
  now rewrite map_map.
Qed.

Lemma map_m_tabulate3 (g : list A -> result (list A)) (d0 d1 : nat)
  (f h : nat -> nat -> list A) :
  (forall i j, i < d0 -> j < d1 -> g (f i j) = Ok (h i j)) ->
  map_m (map_m g) (tabulate3 d0 d1 f) = Ok (tabulate3 d0 d1 h).
Proof.
  intros H. unfold tabulate3.
  apply (map_m_map (map_m g) (fun i => map (fun j => f i j) (seq 0 d1))
           (fun i => map (fun j => h i j) (seq 0 d1))).
  intros i Hi. apply in_seq in Hi.
  apply (map_m_map g (fun j => f i j) (fun j => h i j)).
  intros j Hj. apply in_seq in Hj. apply H; lia.
Qed.

Lemma zip_with_m_tabulate3 (g : list A -> list A -> result (list A)) (d0 d1 : nat)
  (f f' h : nat -> nat -> list A) :
  (forall i j, i < d0 -> j < d1 -> g (f i j) (f' i j) = Ok (h i j)) ->
  zip_with_m (zip_with_m g) (tabulate3 d0 d1 f) (tabulate3 d0 d1 f')
    = Ok (tabulate3 d0 d1 h).
Proof.
  intros H. unfold tabulate3.
  apply (zip_with_m_map (zip_with_m g) (fun i => map (fun j => f i j) (seq 0 d1))
           (fun i => map (fun j => f' i j) (seq 0 d1))
           (fun i => map (fun j => h i j) (seq 0 d1))).
  intros i Hi. apply in_seq in Hi.
  apply (zip_with_m_map g (fun j => f i j) (fun j => f' i j) (fun j => h i j)).
  intros j Hj. apply in_seq in Hj. apply H; lia.
Qed.

(** Exchanging the axes of the grouped rows: row [i, j] of the result is
    row [j * d1 + i] of the buffer. *)
Lemma einsum_chunks (d0 d1 : nat) (t : tensor2 A) :
  0 < d0 -> length t = d0 * d1 ->
  einsum_ijk_jik (chunks d0 d1 t) = tabulate3 d1 d0 (fun i j => nth (j * d1 + i) t []).
Proof.
  intros H0 Hlen. destruct d0 as [|d0]; [lia|].
  assert (Hp : length (firstn d1 t) = d1) by (rewrite length_firstn; simpl in Hlen; lia).
  cbn [chunks]. unfold einsum_ijk_jik. rewrite Hp.
  change (firstn d1 t :: chunks d0 d1 (skipn d1 t)) with (chunks (S d0) d1 t).
  unfold tabulate3. apply map_ext_seq. intros i Hi.
  rewrite chunks_tabulate, map_map. apply map_ext_seq. intros j Hj.
  now apply nth_firstn_skipn.
Qed.

End TensorFacts.
End TorchFacts.

(** * Facts about the container *)

Module CollectionFacts.
Import Torch Physx MathUtils Buffers Collection TorchFacts.

Section Reads.
Context {A : Type}.
Variable sentinel : float.

Abbreviation container := (@RigidObjectCollectionData A).
Abbreviation view := (RigidBodyView A).

(** ** The reorder in closed form *)

Lemma view_to_data_order_rows (s : container) (t : tensor2 A) (k : nat) :
  (0 < num_instances s)%Z -> (0 < num_objects s)%Z ->
  shape2 (Z.to_nat (num_instances s * num_objects s)) k t = true ->
  _view_to_data_order s t =
    Ok (tabulate3 (Z.to_nat (num_instances s)) (Z.to_nat (num_objects s))
          (fun i j => nth (j * Z.to_nat (num_instances s) + i) t [])).
Proof.
  intros Hi Ho Hs. unfold _view_to_data_order.
  rewrite Z.mul_comm in Hs. rewrite (reshape_rows _ _ k t Ho Hi Hs).
  cbn [result_map result_bind]. f_equal.
  apply shape2_spec in Hs as [Hlen _].
  apply einsum_chunks; [lia|]. rewrite Hlen. apply Z2Nat.inj_mul; lia.
Qed.

Lemma view_to_data_order_ok_sizes (s : container) (t : tensor2 A) (r : tensor3 A) :
  _view_to_data_order s t = Ok r ->
  (0 < num_objects s /\ 0 < num_instances s /\
   numel t mod (num_objects s * num_instances s) = 0)%Z.
Proof.
  unfold _view_to_data_order. intros H. apply reshape_ok_iff.
  destruct (reshape (num_objects s) (num_instances s) t) as [r'|e]; [eauto|discriminate].
Qed.

(** ** What a refresh computes from a view that honours the layout *)

Section Layout.
Variables (s : container) (v : view).
Hypothesis instances_pos : (0 < num_instances s)%Z.
Hypothesis objects_pos : (0 < num_objects s)%Z.

Let ni := Z.to_nat (num_instances s).
Let no := Z.to_nat (num_objects s).
Let rows := Z.to_nat (num_instances s * num_objects s).

Lemma layout_row_length (t : tensor2 A) (k i j : nat) :
  shape2 rows k t = true -> i < ni -> j < no -> length (nth (j * ni + i) t []) = k.
Proof using instances_pos objects_pos.
  intros Hs Hi Hj. apply shape2_spec in Hs as [Hlen Hrows].
  rewrite Forall_forall in Hrows. apply Hrows. apply nth_In. rewrite Hlen.
  unfold rows. rewrite Z2Nat.inj_mul by lia. fold ni no. nia.
Qed.

Lemma pose_of_view_layout :
  shape2 rows 7 (get_transforms v) = true ->
  pose_of_view s v =
    Ok (tabulate3 ni no (fun i j => pose_row (nth (j * ni + i) (get_transforms v) []))).
Proof using instances_pos objects_pos.
  intros Hs. unfold pose_of_view, clone.
  rewrite (view_to_data_order_rows s _ 7 instances_pos objects_pos Hs).
  fold ni no. cbn [result_bind]. rewrite slice_last_tabulate3.
  unfold convert_quat.
  rewrite (map_m_tabulate3 (convert_quat_row wxyz) ni no _
             (fun i j => match nth (j * ni + i) (get_transforms v) [] with
                         | [_; _; _; x; y; z; w] => [w; x; y; z]
                         | _ => []
                         end)).
  - cbn [result_bind]. unfold assign_last.
    apply zip_with_m_tabulate3. intros i j Hi Hj.
    pose proof (layout_row_length _ 7 i j Hs Hi Hj) as Hlen.
    destruct (nth (j * ni + i) (get_transforms v) [])
      as [|px [|py [|pz [|x [|y [|z [|w [|]]]]]]]]; try discriminate Hlen.
    reflexivity.
  - intros i j Hi Hj.
    pose proof (layout_row_length _ 7 i j Hs Hi Hj) as Hlen.
    destruct (nth (j * ni + i) (get_transforms v) [])
      as [|px [|py [|pz [|x [|y [|z [|w [|]]]]]]]]; try discriminate Hlen.
    reflexivity.
Qed.

Lemma state_of_view_layout :
  shape2 rows 7 (get_transforms v) = true ->
  shape2 rows 6 (get_velocities v) = true ->
  state_of_view s v =
    Ok (tabulate3 ni no (fun i j =>
          pose_row (nth (j * ni + i) (get_transforms v) [])
          ++ nth (j * ni + i) (get_velocities v) [])).
Proof using instances_pos objects_pos.
  intros Ht Hv. unfold state_of_view.
  rewrite (pose_of_view_layout Ht). cbn [result_bind].
  rewrite (view_to_data_order_rows s _ 6 instances_pos objects_pos Hv).
  fold ni no. cbn [result_bind]. unfold cat_last.
  apply zip_with_m_tabulate3. reflexivity.
Qed.

Lemma acc_of_view_layout :
  shape2 rows 6 (get_accelerations v) = true ->
  acc_of_view s v =
    Ok (tabulate3 ni no (fun i j => nth (j * ni + i) (get_accelerations v) [])).
Proof using instances_pos objects_pos.
  intros Ha. unfold acc_of_view, clone.
  now rewrite (view_to_data_order_rows s _ 6 instances_pos objects_pos Ha).
Qed.

Lemma pose_row_length (t : list A) : length (pose_row t) = length t.
Proof using.
  destruct t as [|px [|py [|pz [|x [|y [|z [|w [|]]]]]]]]; reflexivity.
Qed.

(** On such a view a refresh succeeds and produces rows of the documented
    width. *)
Lemma recompute_layout (q : quantity) :
  layout s v = true ->
  exists d, recompute q s v = Ok d /\ shape3 ni no (width q) d = true.
Proof using instances_pos objects_pos.
  unfold layout. fold rows. rewrite !andb_true_iff. intros [[Ht Hv] Ha].
  destruct q; cbn [recompute width].
  - rewrite (state_of_view_layout Ht Hv). eexists. split; [reflexivity|].
    apply tabulate3_shape. intros i j Hi Hj.
    rewrite length_app, pose_row_length.
    now rewrite (layout_row_length _ 7 i j Ht Hi Hj), (layout_row_length _ 6 i j Hv Hi Hj).
  - rewrite (acc_of_view_layout Ha). eexists. split; [reflexivity|].
    apply tabulate3_shape. intros i j Hi Hj.
    exact (layout_row_length _ 6 i j Ha Hi Hj).
Qed.

End Layout.

(** ** Buffers the sizes do not divide *)

Lemma view_to_data_order_unfit (s : container) (t : tensor2 A) :
  divides_into s t = false -> _view_to_data_order s t = Raise RuntimeError.
Proof.
  unfold divides_into, _view_to_data_order. intros H.
  rewrite reshape_raises; [reflexivity|].
  intros (Ho & Hi & Hm). rewrite !andb_false_iff in H.
  destruct H as [[H|H]|H].
  - apply Z.ltb_ge in H. lia.
  - apply Z.ltb_ge in H. lia.
  - apply Z.eqb_neq in H. contradiction.
Qed.

Lemma recompute_unfit (q : quantity) (s : container) (v : view) :
  fits q s v = false -> exists e, recompute q s v = Raise e.
Proof.
  destruct q; cbn [fits recompute]; intros H.
  - unfold state_of_view, pose_of_view, clone.
    destruct (divides_into s (get_transforms v)) eqn:Ht; cbn [andb] in H.
    + rewrite (view_to_data_order_unfit s _ H).
      destruct (result_bind (_view_to_data_order s (get_transforms v)) _); cbn [result_bind]; eauto.
    + rewrite (view_to_data_order_unfit s _ Ht). cbn [result_bind]. eauto.
  - unfold acc_of_view, clone. rewrite (view_to_data_order_unfit s _ H). eauto.
Qed.

Lemma acc_of_view_fit (s : container) (v : view) :
  divides_into s (get_accelerations v) = true -> exists t, acc_of_view s v = Ok t.
Proof.
  unfold divides_into, acc_of_view, _view_to_data_order, clone. intros H.
  rewrite !andb_true_iff in H. destruct H as [[Ho Hi] Hm].
  apply Z.ltb_lt in Ho, Hi. apply Z.eqb_eq in Hm.
  destruct (proj2 (reshape_ok_iff (num_objects s) (num_instances s) (get_accelerations v)))
    as [r ->]; [auto|].
  cbn [result_map result_bind]. eauto.
Qed.

(** ** Derived properties are slices of what the cached property returns *)

Lemma sliced_property (a b : nat) (m : method (option (tensor3 A))) (v : view) (s : container) :
  bind m (fun t => lift (subscript_last a b t)) v s =
    {| returned := result_bind (returned (m v s)) (subscript_last a b);
       self_after := self_after (m v s);
       queried := queried (m v s) |}.
Proof.
  unfold bind, lift. destruct (m v s) as [[x|e] s' c]; cbn [returned self_after queried result_bind];
    [rewrite app_nil_r|]; reflexivity.
Qed.

(** ** What a read does, by case on staleness *)

Lemma read_fresh (q : quantity) (v : view) (s : container) :
  stale q s = false ->
  read q v s = {| returned := Ok (data (cache q s)); self_after := s; queried := [] |}.
Proof.
  unfold stale. intros H.
  destruct q; cbn [cache read] in H |- *;
    [unfold object_state_w | unfold object_acc_w];
    unfold bind, get_self, ret; rewrite H; reflexivity.
Qed.

Lemma read_stale (q : quantity) (v : view) (s : container) :
  stale q s = true ->
  read q v s =
    match recompute q s v with
    | Ok d => {| returned := Ok (Some d); self_after := refreshed q s d;
                 queried := getters q |}
    | Raise e => {| returned := Raise e; self_after := s; queried := calls_made q s v |}
    end.
Proof.
  unfold stale. intros H.
  destruct q; cbn [cache read recompute calls_made] in H |- *.
  - unfold object_state_w, state_of_view, pose_of_view.
    unfold bind, _root_physx_view, lift, assign_state_data, assign_state_timestamp,
      set_object_state_w, get_self, ret.
    rewrite H.
    destruct (_view_to_data_order s (clone (get_transforms v))) as [pose|e];
      cbn [result_bind]; [|reflexivity].
    destruct (convert_quat (slice_last 3 7 pose) wxyz) as [quat|e];
      cbn [result_bind]; [|reflexivity].
    destruct (assign_last 3 7 pose quat) as [pose'|e];
      cbn [result_bind]; [|reflexivity].
    destruct (_view_to_data_order s (get_velocities v)) as [vel|e];
      cbn [result_bind]; [|reflexivity].
    destruct (cat_last pose' vel) as [d|e]; reflexivity.
  - unfold object_acc_w, acc_of_view.
    unfold bind, _root_physx_view, lift, assign_acc_data, assign_acc_timestamp,
      set_object_acc_w, get_self, ret.
    rewrite H.
    destruct (_view_to_data_order s (clone (get_accelerations v))) as [d|e]; reflexivity.
Qed.

Lemma read_spec (q : quantity) (v : view) (s : container) :
  read_outcome q v s (read q v s).
Proof.
  destruct (stale q s) eqn:H.
  - rewrite (read_stale q v s H).
    destruct (recompute q s v) as [d|e] eqn:E; [now apply read_refresh|now apply read_raise].
  - rewrite (read_fresh q v s H). now apply read_hit.
Qed.

(** ** The container after a refresh *)

Lemma refreshed_clock (q : quantity) (s : container) (d : tensor3 A) :
  _sim_timestamp (refreshed q s d) = _sim_timestamp s.
Proof. destruct q; reflexivity. Qed.

Lemma refreshed_sizes (q : quantity) (s : container) (d : tensor3 A) :
  num_objects (refreshed q s d) = num_objects s /\
  num_instances (refreshed q s d) = num_instances s.
Proof. destruct q; split; reflexivity. Qed.

Lemma refreshed_cache (q : quantity) (s : container) (d : tensor3 A) :
  cache q (refreshed q s d) = {| data := Some d; timestamp := _sim_timestamp s |}.
Proof. destruct q; reflexivity. Qed.

Lemma refreshed_other (q q' : quantity) (s : container) (d : tensor3 A) :
  q' <> q -> cache q' (refreshed q s d) = cache q' s.
Proof. destruct q, q'; intros H; try reflexivity; now elim H. Qed.

Lemma refreshed_not_stale (q : quantity) (s : container) (d : tensor3 A) :
  stale q (refreshed q s d) = false.
Proof.
  unfold stale. rewrite refreshed_cache, refreshed_clock. apply Float64Facts.ltb_irrefl.
Qed.

(** ** Frame: what a read leaves alone *)

Lemma read_clock (q : quantity) (v : view) (s : container) :
  _sim_timestamp (self_after (read q v s)) = _sim_timestamp s.
Proof.
  destruct (read_spec q v s); cbn [self_after]; auto using refreshed_clock.
Qed.

Lemma read_sizes (q : quantity) (v : view) (s : container) :
  num_objects (self_after (read q v s)) = num_objects s /\
  num_instances (self_after (read q v s)) = num_instances s.
Proof.
  destruct (read_spec q v s); cbn [self_after]; auto using refreshed_sizes.
Qed.

Lemma read_other (q q' : quantity) (v : view) (s : container) :
  q' <> q -> cache q' (self_after (read q v s)) = cache q' s.
Proof.
  intros H. destruct (read_spec q v s); cbn [self_after]; auto using refreshed_other.
Qed.

(** A read that returned leaves its cache fresh. *)
Lemma read_returns_fresh (q : quantity) (v : view) (s : container) (x : option (tensor3 A)) :
  returned (read q v s) = Ok x -> stale q (self_after (read q v s)) = false.
Proof.
  destruct (read_spec q v s); cbn [returned self_after]; intros E;
    [assumption | apply refreshed_not_stale | discriminate].
Qed.

Lemma update_clock (s : container) (dt : float) :
  _sim_timestamp (update s dt) = (_sim_timestamp s + dt)%float.
Proof. reflexivity. Qed.

Lemma update_cache (q : quantity) (s : container) (dt : float) :
  cache q (update s dt) = cache q s.
Proof. destruct q; reflexivity. Qed.

(** ** The counts of recomputations *)

Lemma recomputations_getters (q : quantity) : recomputations q (getters q) = 1.
Proof. destruct q; reflexivity. Qed.

Lemma recomputations_calls_made (q : quantity) (s : container) (v : view) :
  recomputations q (calls_made q s v) = 1.
Proof. destruct q; simpl; [destruct (pose_of_view s v)|]; reflexivity. Qed.

(** ** Invariants of the clock and the cache timestamps *)

Lemma init_sizes (v : view) (n : Z) (s : container) :
  __init__ sentinel v n = Ok s ->
  n <> 0%Z /\ num_objects s = n /\ num_instances s = (count v / n)%Z /\
  _sim_timestamp s = 0%float /\
  forall q, cache q s = TimestampedBuffer_new sentinel.
Proof.
  unfold __init__. destruct (Z.eqb_spec n 0); [discriminate|].
  intros E. injection E as <-. repeat split; auto. intros []; reflexivity.
Qed.

Lemma init_clock_inv (v : view) (n : Z) (s : container) :
  (sentinel <? 0)%float = true -> __init__ sentinel v n = Ok s -> clock_inv s.
Proof.
  intros Hs E. apply init_sizes in E as (_ & _ & _ & Ht & Hc).
  split; [unfold Float64.nonneg; rewrite Ht; reflexivity|].
  intros q. rewrite Hc, Ht. cbn [timestamp TimestampedBuffer_new].
  now apply Float64Facts.ltb_leb.
Qed.

Lemma quantity_eq_dec (q q' : quantity) : {q = q'} + {q <> q'}.
Proof. decide equality. Qed.

Lemma step_clock_inv (env : container -> view -> Prop) (s : container) (a : action) :
  clock_inv s -> admissible env s a -> clock_inv (step s a).
Proof.
  intros [Hn Hc] Ha. destruct a as [dt|q v]; cbn [step admissible] in *.
  - split; [rewrite update_clock; now apply Float64Facts.add_nonneg|].
    intros q. rewrite update_cache, update_clock.
    apply Float64Facts.leb_trans with (_sim_timestamp s); [apply Hc|].
    now apply Float64Facts.add_mono_pos.
  - split; [now rewrite read_clock|].
    intros q'. rewrite read_clock.
    destruct (quantity_eq_dec q' q) as [->|Hq]; [|rewrite read_other by assumption; apply Hc].
    destruct (read_spec q v s); cbn [self_after]; try apply Hc.
    rewrite refreshed_cache. cbn [timestamp].
    now apply Float64Facts.leb_refl_r with 0%float.
Qed.

Lemma reachable_clock_inv (env : container -> view -> Prop) (s : container) :
  (sentinel <? 0)%float = true -> reachable sentinel env s -> clock_inv s.
Proof.
  intros Hs. induction 1 as [v n s E|s a _ IH Ha].
  - eapply init_clock_inv; eassumption.
  - eapply step_clock_inv; eassumption.
Qed.

(** ** Properties sliced out of the state *)

Lemma read_property_spec (p : state_property) (v : view) (s : container) :
  read_property p v s =
    {| returned := result_bind (returned (read State v s))
                     (subscript_last (fst (components p)) (snd (components p)));
       self_after := self_after (read State v s);
       queried := queried (read State v s) |}.
Proof. destruct p; apply sliced_property. Qed.

Lemma read_property_fresh (p : state_property) (v : view) (s : container) :
  stale State s = false ->
  read_property p v s =
    {| returned := subscript_last (fst (components p)) (snd (components p))
                     (data (_object_state_w s));
       self_after := s;
       queried := [] |}.
Proof.
  intros H. rewrite read_property_spec, (read_fresh State v s H). reflexivity.
Qed.

Lemma completed_refresh_no_call {X : Type} (r : result X) (s : container) :
  completed_refresh {| returned := r; self_after := s; queried := [] |} = false.
Proof. unfold completed_refresh. cbn [returned queried]. now destruct r. Qed.

Lemma completed_refresh_raise {X : Type} (e : exception) (s : container) (c : list call) :
  completed_refresh (X := X) {| returned := Raise e; self_after := s; queried := c |} = false.
Proof. reflexivity. Qed.

Lemma read_properties_fresh (reads : list (state_property * view)) (s : container) :
  stale State s = false -> refreshes (read_properties reads s) = 0.
Proof.
  intros H. induction reads as [|[p v] reads IH]; [reflexivity|].
  cbn [read_properties]. rewrite (read_property_fresh p v s H).
  cbn [self_after]. unfold refreshes in *. cbn [filter].
  now rewrite completed_refresh_no_call.
Qed.

Lemma read_properties_refresh_once (reads : list (state_property * view)) :
  forall s : container, refreshes (read_properties reads s) <= 1.
Proof.
  induction reads as [|[p v] reads IH]; intros s; [unfold refreshes; simpl; lia|].
  cbn [read_properties]. rewrite read_property_spec.
  cbn [self_after]. unfold refreshes in *. cbn [filter].
  destruct (read_spec State v s) as [Hf|d Hs Hd|e Hs He]; cbn [returned self_after queried].
  - pose proof (read_properties_fresh reads s Hf) as H0. unfold refreshes in H0.
    rewrite completed_refresh_no_call, H0. lia.
  - pose proof (read_properties_fresh reads _ (refreshed_not_stale State s d)) as H0.
    unfold refreshes in H0.
    destruct (completed_refresh _); cbn [length]; rewrite H0; lia.
  - cbn [result_bind]. rewrite completed_refresh_raise. apply IH.
Qed.

(** ** Shapes of what the caches hold *)

Lemma recompute_ok_sizes (q : quantity) (s : container) (v : view) (d : tensor3 A) :
  recompute q s v = Ok d -> (0 < num_instances s /\ 0 < num_objects s)%Z.
Proof.
  destruct q; cbn [recompute]; intros H.
  - unfold state_of_view, pose_of_view in H.
    destruct (_view_to_data_order s (clone (get_transforms v))) as [r|e] eqn:E;
      [|discriminate].
    apply view_to_data_order_ok_sizes in E. lia.
  - unfold acc_of_view in H. apply view_to_data_order_ok_sizes in H. lia.
Qed.

Lemma init_cache_shaped (v : view) (n : Z) (s : container) :
  __init__ sentinel v n = Ok s -> cache_shaped s.
Proof.
  intros E q d Hd. apply init_sizes in E as (_ & _ & _ & _ & Hc).
  rewrite Hc in Hd. discriminate.
Qed.

Lemma step_cache_shaped (s : container) (a : action) :
  cache_shaped s -> admissible honours_layout s a -> cache_shaped (step s a).
Proof.
  intros H Ha. destruct a as [dt|q v]; cbn [step admissible] in *.
  - intros q d. rewrite update_cache. apply H.
  - intros q' d'. destruct (read_sizes q v s) as [-> ->].
    destruct (quantity_eq_dec q' q) as [->|Hq];
      [|rewrite read_other by assumption; apply H].
    destruct (read_spec q v s) as [Hf|d Hs Hd|e Hs He]; cbn [self_after]; try apply H.
    rewrite refreshed_cache. cbn [data]. intros [= <-].
    destruct (recompute_ok_sizes q s v d Hd) as [Hi Ho].
    destruct (recompute_layout s v Hi Ho q Ha) as (d0 & E & Hshape).
    congruence.
Qed.

Lemma reachable_cache_shaped (s : container) :
  reachable sentinel honours_layout s -> cache_shaped s.
Proof.
  induction 1 as [v n s E|s a _ IH Ha].
  - eapply init_cache_shaped; eassumption.
  - now apply step_cache_shaped.
Qed.

(** What a read returned is what its cache holds afterwards. *)
Lemma read_returns_cache (q : quantity) (v : view) (s : container) (x : option (tensor3 A)) :
  returned (read q v s) = Ok x -> data (cache q (self_after (read q v s))) = x.
Proof.
  destruct (read_spec q v s); cbn [returned self_after]; intros [= <-];
    [reflexivity|now rewrite refreshed_cache].
Qed.


End Reads.
End CollectionFacts.

(** * The container's contract *)

Module Properties.
Import Torch Physx MathUtils Buffers Collection TorchFacts CollectionFacts Float64.

Section Reorder.
Context {A : Type}.


End Reorder.

Section Clock.
Context {A : Type}.
Variable sentinel : float.

Abbreviation container := (@RigidObjectCollectionData A).
Abbreviation view := (RigidBodyView A).

(** A recomputation reads the container's two sizes and nothing else of it. *)
Lemma recompute_sizes (q : quantity) (s s' : container) (v : view) :
  num_objects s' = num_objects s -> num_instances s' = num_instances s ->
  recompute q s' v = recompute q s v.
Proof.
  intros Ho Hi.
  destruct q; cbn [recompute]; unfold state_of_view, pose_of_view, acc_of_view,
    _view_to_data_order; now rewrite Ho, Hi.
Qed.

Lemma updates_clock (dts : list float) : forall s : container,
  _sim_timestamp (fold_left update dts s) = fold_left PrimFloat.add dts (_sim_timestamp s).
Proof. induction dts as [|dt dts IH]; intros s; simpl; [reflexivity|]. now rewrite IH. Qed.

Lemma updates_nondecreasing (dts : list float) : forall s : container,
  nonneg (_sim_timestamp s) -> Forall positive_step dts ->
  (_sim_timestamp s <=? _sim_timestamp (fold_left update dts s))%float = true.
Proof.
  induction dts as [|dt dts IH]; intros s Hs Hd; simpl.
  - now apply Float64Facts.leb_refl_r with 0%float.
  - inversion Hd as [|? ? Hdt Hrest]; subst.
    apply Float64Facts.leb_trans with (_sim_timestamp (update s dt)).
    + now apply Float64Facts.add_mono_pos.
    + apply IH; [|assumption]. now apply Float64Facts.add_nonneg.
Qed.

Lemma updates_nonneg (dts : list float) (s : container) :
  nonneg (_sim_timestamp s) -> Forall positive_step dts ->
  nonneg (_sim_timestamp (fold_left update dts s)).
Proof.
  intros Hs Hd. unfold nonneg.
  apply Float64Facts.leb_trans with (_sim_timestamp s); [exact Hs|].
  now apply updates_nondecreasing.
Qed.

(** C3 (amended).  Reading the same cached quantity twice with no update in
    between, when the first read returns: the second read returns the same
    value and does not query the view, even if the view changed meanwhile;
    across the two reads the quantity is recomputed once if its cache was
    stale before the first read and not at all if it was fresh. *)
Theorem read_twice_hits_cache (q : quantity) (v v' : view) (s : container)
  (x : option (tensor3 A)) :
  returned (read q v s) = Ok x ->
  let o1 := read q v s in
  let o2 := read q v' (self_after o1) in
  returned o2 = Ok x /\ queried o2 = [] /\ self_after o2 = self_after o1 /\
  recomputations q (queried o1 ++ queried o2) = (if stale q s then 1 else 0).
Proof.
  intros Hx o1 o2. subst o2.
  rewrite (read_fresh q v' (self_after o1) (read_returns_fresh q v s x Hx)).
  cbn [returned queried self_after]. rewrite app_nil_r. subst o1.
  destruct (read_spec q v s) as [Hf|d Hs Hd|e Hs He];
    cbn [returned queried self_after] in *.
  - rewrite Hf. auto.
  - rewrite Hs, refreshed_cache, recomputations_getters. cbn [data]. auto.
  - discriminate.
Qed.

(** C4 (amended).  After [update(dt)] with [dt > 0] that moves the clock
    ([_sim_timestamp + dt > _sim_timestamp] in float arithmetic), the next
    read of a cached quantity starts exactly one recomputation, and what it
    returns or raises is what the recomputation makes of the view at that
    moment: a function of the view and of the container's two sizes, not of
    what the cache held. *)
Theorem read_after_update_recomputes (env : container -> view -> Prop)
  (q : quantity) (v : view) (s : container) (dt : float) :
  (sentinel <? 0)%float = true ->
  reachable sentinel env s ->
  positive_step dt ->
  (_sim_timestamp s <? _sim_timestamp s + dt)%float = true ->
  let o := read q v (update s dt) in
  recomputations q (queried o) = 1 /\
  returned o = result_map Some (recompute q (update s dt) v) /\
  forall s' : container,
    num_objects s' = num_objects s -> num_instances s' = num_instances s ->
    recompute q s' v = recompute q (update s dt) v.
Proof.
  intros Hs Hr _ Hlt o. subst o.
  destruct (reachable_clock_inv sentinel env s Hs Hr) as [_ Hc].
  assert (Hst : stale q (update s dt) = true).
  { unfold stale. rewrite update_cache, update_clock.
    eapply Float64Facts.leb_ltb_trans; [apply Hc|exact Hlt]. }
  rewrite (read_stale q v _ Hst).
  split; [|split; [|intros s' Ho Hi; now apply recompute_sizes]];
    destruct (recompute q (update s dt) v) as [d|e];
    cbn [returned queried result_map result_bind]; try reflexivity.
  - now rewrite recomputations_getters.
  - now rewrite recomputations_calls_made.
Qed.

(** C5.  From a freshly constructed container, after each call of a
    sequence [update(dt1), update(dt2), ...] with positive steps the
    simulation timestamp is its initial value [0.0] plus the running sum
    of the steps so far (binary64 additions, in the order of the calls),
    and it never decreases along the sequence. *)
Theorem clock_is_running_sum (v : view) (n : Z) (s0 : container) (dts : list float) :
  __init__ sentinel v n = Ok s0 ->
  Forall positive_step dts ->
  _sim_timestamp s0 = 0%float /\
  forall k : nat, k <= length dts ->
    let clock (i : nat) := _sim_timestamp (fold_left update (firstn i dts) s0) in
    clock k = fold_left PrimFloat.add (firstn k dts) (_sim_timestamp s0) /\
    clock k = (_sim_timestamp s0 + fold_left PrimFloat.add (firstn k dts) 0)%float /\
    forall j : nat, j <= k -> (clock j <=? clock k)%float = true.
Proof.
  intros E Hd. apply init_sizes in E as (_ & _ & _ & Ht & _).
  split; [exact Ht|]. intros k Hk clock. subst clock. cbn beta.
  split; [apply updates_clock|]. split.
  - rewrite updates_clock, Ht. symmetry. apply Float64Facts.zero_add.
    apply Float64Facts.running_sum_zero_or_positive; [exact I|].
    now apply Forall_firstn.
  - intros j Hj.
    assert (Hsplit : firstn k dts = firstn j dts ++ firstn (k - j) (skipn j dts)).
    { rewrite <- (firstn_skipn j dts) at 1.
      rewrite firstn_app, firstn_firstn, length_firstn.
      replace (Nat.min k j) with j by lia.
      replace (k - Nat.min j (length dts)) with (k - j) by lia. reflexivity. }
    rewrite Hsplit, fold_left_app.
    apply updates_nondecreasing.
    + apply updates_nonneg; [unfold nonneg; rewrite Ht; reflexivity|].
      now apply Forall_firstn.
    + now apply Forall_firstn, Forall_skipn.
Qed.

(** C6.  A read either leaves its cache as it was or stamps it with the
    container's simulation timestamp of that moment, which the read does
    not change; hence in every state reached by updates with positive
    steps and reads no cache is stamped later than [_sim_timestamp]. *)
Theorem cache_timestamp_at_most_clock (env : container -> view -> Prop) (s : container) :
  (sentinel <? 0)%float = true ->
  reachable sentinel env s ->
  (forall q, (timestamp (cache q s) <=? _sim_timestamp s)%float = true) /\
  (forall q v,
     let s' := self_after (read q v s) in
     _sim_timestamp s' = _sim_timestamp s /\
     (cache q s' = cache q s \/ timestamp (cache q s') = _sim_timestamp s)).
Proof.
  intros Hs Hr. split; [apply (reachable_clock_inv sentinel env s Hs Hr)|].
  intros q v s'. subst s'. split; [apply read_clock|].
  destruct (read_spec q v s); cbn [self_after]; auto.
  right. now rewrite refreshed_cache.
Qed.

Lemma run_leaves_unread (q : quantity) (acts : list action) : forall s : container,
  Forall (leaves_unread q) acts ->
  cache q (run s acts) = cache q s /\
  (nonneg (_sim_timestamp s) -> nonneg (_sim_timestamp (run s acts))).
Proof.
  induction acts as [|a acts IH]; intros s Ha; [split; auto|].
  inversion Ha as [|? ? Hq Hrest]; subst.
  destruct (IH (step s a) Hrest) as [Hc Hn]. cbn [run fold_left] in *.
  fold (run (step s a) acts) in *. rewrite Hc.
  destruct a as [dt|q' v]; cbn [step leaves_unread] in *.
  - split; [apply update_cache|].
    intros H0. apply Hn. rewrite update_clock. now apply Float64Facts.add_nonneg.
  - split; [now apply read_other|].
    intros H0. apply Hn. now rewrite read_clock.
Qed.

(** C7.  A new container's caches carry the sentinel timestamp; as that
    lies below the initial simulation time [0.0], the first read of each
    cached quantity recomputes it from the view, whether or not [update]
    was called since construction (the calls before it may be none at all,
    or any updates with positive steps and reads of the other quantity). *)
Theorem first_read_recomputes (v0 : view) (n : Z) (s0 : container)
  (acts : list action) (q : quantity) (v : view) :
  (sentinel <? 0)%float = true ->
  __init__ sentinel v0 n = Ok s0 ->
  Forall (leaves_unread q) acts ->
  timestamp (cache q s0) = sentinel /\
  let s := run s0 acts in
  let o := read q v s in
  stale q s = true /\
  recomputations q (queried o) = 1 /\
  returned o = result_map Some (recompute q s v).
Proof.
  intros Hs E Ha.
  pose proof (init_clock_inv sentinel v0 n s0 Hs E) as [Hn _].
  apply init_sizes in E as (_ & _ & _ & _ & Hc).
  split; [now rewrite Hc|]. intros s o.
  destruct (run_leaves_unread q acts s0 Ha) as [Hq Hnn]. specialize (Hnn Hn).
  assert (Hst : stale q s = true).
  { unfold stale, s. rewrite Hq, Hc. cbn [timestamp TimestampedBuffer_new].
    eapply Float64Facts.ltb_leb_trans; [exact Hs|exact Hnn]. }
  split; [exact Hst|]. subst o. rewrite (read_stale q v s Hst).
  destruct (recompute q s v) as [d|e]; cbn [returned queried result_map result_bind].
  - now rewrite recomputations_getters.
  - now rewrite recomputations_calls_made.
Qed.

End Clock.

Section Shapes.
Context {A : Type}.

(** C8 (amended).  When a cached quantity is stale and a buffer its
    refresh reshapes cannot be cut into [num_objects * num_instances]
    blocks (a size is not positive, or their product does not divide the
    buffer's number of elements), the read raises and leaves the container
    as it was: no result is returned from such a buffer.  A buffer that can
    be cut so is not rejected, whatever its leading dimension:
    [object_acc_w] returns a result from it. *)
Theorem stale_read_rejects_unfit_buffers (q : quantity) (v : RigidBodyView A)
  (s : @RigidObjectCollectionData A) :
  stale q s = true ->
  (fits q s v = false ->
   (exists e, returned (read q v s) = Raise e) /\ self_after (read q v s) = s) /\
  (fits Acc s v = true ->
   stale Acc s = true ->
   exists t, returned (object_acc_w v s) = Ok (Some t)).
Proof.
  intros Hs. split.
  - intros Hf. rewrite (read_stale q v s Hs).
    destruct (recompute_unfit q s v Hf) as [e ->]. cbn [returned self_after]. eauto.
  - intros Hf Hsa. change object_acc_w with (read (A := A) Acc).
    rewrite (read_stale Acc v s Hsa). cbn [recompute fits] in *.
    destruct (acc_of_view_fit s v Hf) as [t ->]. cbn [returned]. eauto.
Qed.


End Shapes.

Section Slices.
Context {A : Type}.
Variable sentinel : float.

Lemma fresh_property_read (p : state_property) (v v' : RigidBodyView A)
  (s : @RigidObjectCollectionData A) (t : tensor3 A) :
  returned (read State v s) = Ok (Some t) ->
  read_property p v' (self_after (read State v s)) =
    {| returned := Ok (slice_last (fst (components p)) (snd (components p)) t);
       self_after := self_after (read State v s);
       queried := [] |}.
Proof.
  intros H.
  rewrite (read_property_fresh p v' _ (read_returns_fresh State v s _ H)).
  change (_object_state_w (self_after (read State v s)))
    with (cache State (self_after (read State v s))).
  now rewrite (read_returns_cache State v s _ H).
Qed.

(** C10 (amended).  In every state reached through views that honour the
    layout (one row of 7, 6 and 6 components per (object, instance) pair):
    however many of [object_pos_w], [object_quat_w], [object_vel_w],
    [object_lin_vel_w] and [object_ang_vel_w] are read without an update in
    between, the state cache is refreshed at most once; once
    [object_state_w] has returned a buffer, these properties are its
    slices, read without touching the view or the container, the
    concatenation of position, orientation, linear and angular velocity
    along the last axis is that buffer, and [object_vel_w] is linear
    followed by angular velocity; likewise [object_lin_acc_w] followed by
    [object_ang_acc_w] is the buffer [object_acc_w] returned. *)
Theorem slices_share_one_buffer (s : @RigidObjectCollectionData A) :
  reachable sentinel honours_layout s ->
  (forall reads, refreshes (read_properties reads s) <= 1) /\
  (forall v t,
     honours_layout s v ->
     returned (object_state_w v s) = Ok (Some t) ->
     let s1 := self_after (object_state_w v s) in
     forall v',
       (forall p, self_after (read_property p v' s1) = s1
                  /\ queried (read_property p v' s1) = []) /\
       returned (object_pos_w v' s1) = Ok (slice_last 0 3 t) /\
       returned (object_quat_w v' s1) = Ok (slice_last 3 7 t) /\
       returned (object_vel_w v' s1) = Ok (slice_last 7 13 t) /\
       returned (object_lin_vel_w v' s1) = Ok (slice_last 7 10 t) /\
       returned (object_ang_vel_w v' s1) = Ok (slice_last 10 13 t) /\
       cat_last_all [slice_last 0 3 t; slice_last 3 7 t;
                     slice_last 7 10 t; slice_last 10 13 t] = Ok t /\
       cat_last (slice_last 7 10 t) (slice_last 10 13 t) = Ok (slice_last 7 13 t)) /\
  (forall v t,
     honours_layout s v ->
     returned (object_acc_w v s) = Ok (Some t) ->
     let s1 := self_after (object_acc_w v s) in
     forall v',
       returned (object_lin_acc_w v' s1) = Ok (slice_last 0 3 t) /\
       self_after (object_lin_acc_w v' s1) = s1 /\
       queried (object_lin_acc_w v' s1) = [] /\
       returned (object_ang_acc_w v' s1) = Ok (slice_last 3 6 t) /\
       self_after (object_ang_acc_w v' s1) = s1 /\
       queried (object_ang_acc_w v' s1) = [] /\
       cat_last (slice_last 0 3 t) (slice_last 3 6 t) = Ok t).
Proof.
  intros Hr. split; [intros reads; apply read_properties_refresh_once|].
  split.
  - intros v t Hl Ht s1 v'. change object_state_w with (read (A := A) State) in *.
    assert (Hshape : shape3 (Z.to_nat (num_instances s1)) (Z.to_nat (num_objects s1)) 13 t
                     = true).
    { apply (reachable_cache_shaped sentinel s1) with (q := State).
      - apply (@reachable_step _ sentinel honours_layout s (Read State v) Hr Hl).
      - apply (read_returns_cache State v s _ Ht). }
    split; [intros p; subst s1; now rewrite (fresh_property_read p v v' s t Ht)|].
    pose proof (fun p => f_equal (fun o => returned o) (fresh_property_read p v v' s t Ht)) as Hp.
    cbn [returned] in Hp. fold s1 in Hp.
    split; [exact (Hp PosW)|]. split; [exact (Hp QuatW)|]. split; [exact (Hp VelW)|].
    split; [exact (Hp LinVelW)|]. split; [exact (Hp AngVelW)|].
    split; [|apply cat_last_slices; lia].
    cbn [cat_last_all fold_left result_bind].
    rewrite (cat_last_slices 0 3 7) by lia. cbn [result_bind].
    rewrite (cat_last_slices 0 7 10) by lia. cbn [result_bind].
    rewrite (cat_last_slices 0 10 13) by lia.
    f_equal. eapply slice_last_all; [exact Hshape|lia].
  - intros v t Hl Ht s1 v'. change object_acc_w with (read (A := A) Acc) in *.
    assert (Hshape : shape3 (Z.to_nat (num_instances s1)) (Z.to_nat (num_objects s1)) 6 t
                     = true).
    { apply (reachable_cache_shaped sentinel s1) with (q := Acc).
      - apply (@reachable_step _ sentinel honours_layout s (Read Acc v) Hr Hl).
      - apply (read_returns_cache Acc v s _ Ht). }
    assert (Hread : forall a b,
              bind (read Acc) (fun x => lift (subscript_last a b x)) v' s1 =
                {| returned := Ok (slice_last a b t); self_after := s1; queried := [] |}).
    { intros a b. rewrite sliced_property.
      rewrite (read_fresh Acc v' s1 (read_returns_fresh Acc v s _ Ht)).
      cbn [returned self_after queried result_bind cache].
      change (_object_acc_w s1) with (cache Acc s1). unfold s1.
      now rewrite (read_returns_cache Acc v s _ Ht). }
    unfold object_lin_acc_w, object_ang_acc_w.
    change object_acc_w with (read (A := A) Acc). rewrite !Hread. cbn [returned self_after queried].
    repeat (split; [reflexivity|]).
    rewrite (cat_last_slices 0 3 6) by lia.
    f_equal. eapply slice_last_all; [exact Hshape|lia].
Qed.



End Slices.

(** ** The theorems at work, and where the claims as first stated fail *)

Import Examples.

Lemma data_1x1_reachable : reachable new_timestamp any_view data_1x1.
Proof. apply reachable_init with (view := view_1x1) (n_objects := 1%Z). reflexivity. Qed.

Lemma data_1x1_updated_reachable :
  reachable new_timestamp any_view (step data_1x1 (Update 1)).
Proof. apply reachable_step; [exact data_1x1_reachable|reflexivity]. Qed.

Lemma data_1x1_read_reachable :
  reachable new_timestamp any_view (run data_1x1 [Update 1; Read State view_1x1]).
Proof.
  change (run data_1x1 [Update 1; Read State view_1x1])
    with (step (step data_1x1 (Update 1)) (Read State view_1x1)).
  apply reachable_step; [exact data_1x1_updated_reachable|exact I].
Qed.

Lemma read_twice_hits_cache_witness :
  let o1 := read State view_1x1 data_1x1 in
  let o2 := read State view_1x1 (self_after o1) in
  returned o2 = Ok (Some [[[1; 2; 3; 7; 4; 5; 6; 8; 9; 10; 11; 12; 13]]]%Z)
  /\ queried o2 = [] /\ self_after o2 = self_after o1
  /\ recomputations State (queried o1 ++ queried o2) = (if stale State data_1x1 then 1 else 0).
Proof.
  exact (read_twice_hits_cache State view_1x1 view_1x1 data_1x1
           (Some [[[1; 2; 3; 7; 4; 5; 6; 8; 9; 10; 11; 12; 13]]]%Z) eq_refl).
Defined.

(** C3 as first stated fails: in the state a first read leaves behind, two
    further reads query the view not once but never. *)
Lemma read_twice_counterexample :
  ~ (forall (s : @RigidObjectCollectionData Z) (q : quantity) (v : RigidBodyView Z),
       reachable new_timestamp any_view s ->
       let o1 := read q v s in
       let o2 := read q v (self_after o1) in
       returned o2 = returned o1 /\ recomputations q (queried o1 ++ queried o2) = 1).
Proof.
  intros H.
  specialize (H (step data_1x1 (Read State view_1x1)) State view_1x1).
  destruct H as [_ H].
  - apply reachable_step; [exact data_1x1_reachable|exact I].
  - vm_compute in H. discriminate H.
Qed.

Lemma read_after_update_recomputes_witness :
  let s := run data_1x1 [Update 1; Read State view_1x1] in
  let o := read State view_1x1 (update s 1) in
  recomputations State (queried o) = 1 /\
  returned o = result_map Some (recompute State (update s 1) view_1x1) /\
  forall s' : @RigidObjectCollectionData Z,
    num_objects s' = num_objects s -> num_instances s' = num_instances s ->
    recompute State s' view_1x1 = recompute State (update s 1) view_1x1.
Proof.
  exact (read_after_update_recomputes new_timestamp any_view State view_1x1
           (run data_1x1 [Update 1; Read State view_1x1]) 1 eq_refl
           data_1x1_read_reachable eq_refl eq_refl).
Defined.

(** C4 as first stated fails: at time [1.0] a step of [2^-60] is positive
    but is absorbed by the addition, so the cache filled at [1.0] still
    counts as fresh and the read after the update recomputes nothing. *)
Lemma read_after_update_counterexample :
  ~ (forall (s : @RigidObjectCollectionData Z) (q : quantity) (v : RigidBodyView Z)
            (dt : float),
       reachable new_timestamp any_view s ->
       positive_step dt ->
       let o := read q v (update s dt) in
       recomputations q (queried o) = 1 /\
       returned o = result_map Some (recompute q (update s dt) v)).
Proof.
  intros H.
  specialize (H (run data_1x1 [Update 1; Read State view_1x1]) State view_1x1 0x1p-60%float).
  destruct H as [H _].
  - exact data_1x1_read_reachable.
  - reflexivity.
  - vm_compute in H. discriminate H.
Qed.

Lemma clock_is_running_sum_witness :
  _sim_timestamp data_1x1 = 0%float /\
  forall k : nat, k <= length [0.5; 0.25]%float ->
    let clock (i : nat) :=
      _sim_timestamp (fold_left update (firstn i [0.5; 0.25]%float) data_1x1) in
    clock k = fold_left PrimFloat.add (firstn k [0.5; 0.25]%float) (_sim_timestamp data_1x1) /\
    clock k = (_sim_timestamp data_1x1
               + fold_left PrimFloat.add (firstn k [0.5; 0.25]%float) 0)%float /\
    forall j : nat, j <= k -> (clock j <=? clock k)%float = true.
Proof.
  apply (clock_is_running_sum new_timestamp view_1x1 1%Z data_1x1 [0.5; 0.25]%float).
  - reflexivity.
  - repeat constructor.
Defined.

Lemma cache_timestamp_at_most_clock_witness :
  let s := step data_1x1 (Update 1) in
  (forall q, (timestamp (cache q s) <=? _sim_timestamp s)%float = true) /\
  (forall q v,
     let s' := self_after (read q v s) in
     _sim_timestamp s' = _sim_timestamp s /\
     (cache q s' = cache q s \/ timestamp (cache q s') = _sim_timestamp s)).
Proof.
  exact (cache_timestamp_at_most_clock new_timestamp any_view
           (step data_1x1 (Update 1)) eq_refl data_1x1_updated_reachable).
Defined.

Lemma first_read_recomputes_witness :
  timestamp (cache State data_1x1) = new_timestamp /\
  let s := run data_1x1 [] in
  let o := read State view_1x1 s in
  stale State s = true /\
  recomputations State (queried o) = 1 /\
  returned o = result_map Some (recompute State s view_1x1).
Proof.
  exact (first_read_recomputes new_timestamp view_1x1 1%Z data_1x1 [] State view_1x1
           eq_refl eq_refl (Forall_nil _)).
Defined.



(** C2 (amended).  A container built on 6 bodies with 3 objects has 2
    instances and reorders the object-major buffer [0,1,2,3,4,5] (k = 1)
    into [[0,2,4],[1,3,5]]; the value [[0,3],[1,4],[2,5]] is what a
    container with 2 objects, hence 3 instances, makes of it. *)
Theorem reorder_example (sentinel : float) :
  result_map num_instances (__init__ sentinel view_6 3) = Ok 2%Z /\
  result_bind (__init__ sentinel view_6 3)
    (fun self => _view_to_data_order self flat6)
    = Ok [[[0]; [2]; [4]]; [[1]; [3]; [5]]]%Z /\
  result_map num_instances (__init__ sentinel view_6 2) = Ok 3%Z /\
  result_bind (__init__ sentinel view_6 2)
    (fun self => _view_to_data_order self flat6)
    = Ok [[[0]; [3]]; [[1]; [4]]; [[2]; [5]]]%Z.
Proof. repeat split. Qed.

(** C2 as first stated fails: with 2 instances and 3 objects the result
    is not [[0,3],[1,4],[2,5]]. *)
Lemma reorder_example_counterexample :
  result_bind (__init__ new_timestamp view_6 3)
    (fun self => _view_to_data_order self flat6)
  <> Ok [[[0]; [3]]; [[1]; [4]]; [[2]; [5]]]%Z.
Proof. intros E. vm_compute in E. discriminate E. Qed.

Lemma stale_read_rejects_unfit_buffers_witness :
  (fits State data_3 view_3 = false ->
   (exists e, returned (read State view_3 data_3) = Raise e)
   /\ self_after (read State view_3 data_3) = data_3) /\
  (fits Acc data_3 view_3 = true ->
   stale Acc data_3 = true ->
   exists t, returned (object_acc_w view_3 data_3) = Ok (Some t)).
Proof.
  exact (stale_read_rejects_unfit_buffers State view_3 data_3 eq_refl).
Defined.

(** C8 as first stated fails: a collection of 2 objects built on a view of
    3 bodies has 1 instance; the acceleration buffer has 3 rows, not 2, yet
    its 18 elements are reshaped into 2 rows of 9 without any error. *)
Lemma shape_mismatch_counterexample :
  ~ (forall (v0 v : RigidBodyView Z) (n : Z) (self : @RigidObjectCollectionData Z),
       __init__ new_timestamp v0 n = Ok self ->
       Z.of_nat (length (get_accelerations v)) <> (num_instances self * num_objects self)%Z ->
       exists e, returned (read Acc v self) = Raise e).
Proof.
  intros H.
  destruct (H view_3 view_3 2%Z data_3 eq_refl) as [e E].
  - vm_compute. discriminate.
  - vm_compute in E. discriminate E.
Qed.


Lemma slices_share_one_buffer_witness :
  (forall reads, refreshes (read_properties reads data_1x1) <= 1) /\
  (forall v t,
     honours_layout data_1x1 v ->
     returned (object_state_w v data_1x1) = Ok (Some t) ->
     let s1 := self_after (object_state_w v data_1x1) in
     forall v',
       (forall p, self_after (read_property p v' s1) = s1
                  /\ queried (read_property p v' s1) = []) /\
       returned (object_pos_w v' s1) = Ok (slice_last 0 3 t) /\
       returned (object_quat_w v' s1) = Ok (slice_last 3 7 t) /\
       returned (object_vel_w v' s1) = Ok (slice_last 7 13 t) /\
       returned (object_lin_vel_w v' s1) = Ok (slice_last 7 10 t) /\
       returned (object_ang_vel_w v' s1) = Ok (slice_last 10 13 t) /\
       cat_last_all [slice_last 0 3 t; slice_last 3 7 t;
                     slice_last 7 10 t; slice_last 10 13 t] = Ok t /\
       cat_last (slice_last 7 10 t) (slice_last 10 13 t) = Ok (slice_last 7 13 t)) /\
  (forall v t,
     honours_layout data_1x1 v ->
     returned (object_acc_w v data_1x1) = Ok (Some t) ->
     let s1 := self_after (object_acc_w v data_1x1) in
     forall v',
       returned (object_lin_acc_w v' s1) = Ok (slice_last 0 3 t) /\
       self_after (object_lin_acc_w v' s1) = s1 /\
       queried (object_lin_acc_w v' s1) = [] /\
       returned (object_ang_acc_w v' s1) = Ok (slice_last 3 6 t) /\
       self_after (object_ang_acc_w v' s1) = s1 /\
       queried (object_ang_acc_w v' s1) = [] /\
       cat_last (slice_last 0 3 t) (slice_last 3 6 t) = Ok t).
Proof.
  apply (slices_share_one_buffer new_timestamp data_1x1).
  apply reachable_init with (view := view_1x1) (n_objects := 1%Z). reflexivity.
Defined.

(** C10 as first stated fails: in the collection of 2 objects built on a
    view of 3 bodies, [object_acc_w] returns rows of 9 components, and the
    3 + 3 components of [object_lin_acc_w] and [object_ang_acc_w] do not
    make them up. *)
Lemma slices_share_one_buffer_counterexample :
  ~ (forall (v : RigidBodyView Z) (n : Z) (s : @RigidObjectCollectionData Z)
            (t : tensor3 Z),
       __init__ new_timestamp v n = Ok s ->
       returned (object_acc_w v s) = Ok (Some t) ->
       let s1 := self_after (object_acc_w v s) in
       exists lin ang,
         returned (object_lin_acc_w v s1) = Ok lin /\
         returned (object_ang_acc_w v s1) = Ok ang /\
         cat_last lin ang = Ok t).
Proof.
  intros H.
  destruct (H view_3 2%Z data_3 _ eq_refl eq_refl) as (lin & ang & Hl & Ha & Hc).
  vm_compute in Hl, Ha. injection Hl as <-. injection Ha as <-.
  vm_compute in Hc. discriminate Hc.
Qed.



End Properties.

(** * Binary64: steps that are not positive, and NaN *)

Module StepFacts.
Import Float64 Float64Facts.
Local Open Scope Z_scope.

Section Rounding.
Variables fprec femax : Z.
Hypothesis fprec_pos : 0 < fprec.

Lemma binary_round_aux_opp m e l :
  binary_round_aux fprec femax true m e l = SFopp (binary_round_aux fprec femax false m e l).
Proof using.
  unfold binary_round_aux.
  destruct (shr_fexp fprec femax m e l) as [r1 e1].
  destruct (shr_fexp fprec femax _ e1 loc_Exact) as [r2 e2].
  destruct (shr_m r2); try reflexivity.
  now destruct (e2 <=? femax - fprec).
Qed.

Lemma binary_round_opp m e :
  binary_round fprec femax true m e = SFopp (binary_round fprec femax false m e).
Proof using.
  unfold binary_round. destruct (shl_align m e _) as [mz ez]. apply binary_round_aux_opp.
Qed.

(** What rounding with a positive sign can return. *)
Lemma binary_round_aux_pos_form m e l :
  match binary_round_aux fprec femax false m e l with
  | S754_zero false | S754_finite false _ _ | S754_infinity false | S754_nan => True
  | _ => False
  end.
Proof using.
  unfold binary_round_aux.
  destruct (shr_fexp fprec femax m e l) as [r1 e1].
  destruct (shr_fexp fprec femax _ e1 loc_Exact) as [r2 e2].
  destruct (shr_m r2); try exact I.
  now destruct (e2 <=? femax - fprec).
Qed.

Lemma shl_align_snd mx ex ez : ez <= ex -> snd (shl_align mx ex ez) = ez.
Proof using.
  intros H. unfold shl_align. destruct (ez - ex) eqn:E; simpl; lia.
Qed.

Lemma digits2_pos_shift p q k :
  0 <= k -> Zpos q = Zpos p * 2 ^ k -> Zpos (digits2_pos q) = Zpos (digits2_pos p) + k.
Proof using.
  intros Hk Hq. apply digits2_pos_unique.
  pose proof (digits2_pos_bounds p) as [Lo Hi].
  set (d := Zpos (digits2_pos p)) in *.
  assert (0 < 2 ^ k) by (apply Z.pow_pos_nonneg; lia).
  replace (d + k - 1) with (d - 1 + k) by lia.
  rewrite !Z.pow_add_r by lia. rewrite Hq. split; nia.
Qed.

(** A value that needs no right shift is rounded to itself, brought to the
    exponent of the format. *)
Lemma binary_round_exact p ez :
  let e1 := SpecFloat.fexp fprec femax (Zpos (digits2_pos p) + ez) in
  e1 <= ez -> e1 <= femax - fprec ->
  binary_round fprec femax false p ez = S754_finite false (fst (shl_align p ez e1)) e1.
Proof using fprec_pos.
  intros e1 He Hmax. unfold binary_round. fold e1.
  pose proof (shl_align_fst p ez e1 He) as Hm.
  pose proof (shl_align_snd p ez e1 He) as Hs.
  destruct (shl_align p ez e1) as [mz ez'] eqn:Ea. cbn [fst snd] in *. subst ez'.
  assert (Hd : Zpos (digits2_pos mz) + e1 = Zpos (digits2_pos p) + ez).
  { rewrite (digits2_pos_shift p mz (ez - e1)) by (lia || assumption). lia. }
  assert (Hf : SpecFloat.fexp fprec femax (Zdigits2 (Zpos mz) + e1) = e1)
    by (simpl Zdigits2; rewrite Hd; reflexivity).
  destruct (shr_fexp_exact fprec femax (Zpos mz) e1) as (R & ER & _ & XR); [lia|lia|].
  rewrite Hf in ER. specialize (XR Hf). subst R.
  unfold binary_round_aux. rewrite ER. cbn [shr_m loc_of_shr_record round_nearest_even].
  rewrite ER. cbn [shr_m].
  apply Z.leb_le in Hmax. now rewrite Hmax.
Qed.

(** A value that is shifted right by rounding: the result has the
    exponent of the format and a mantissa at most one above the truncated
    one, or the mantissa reached [2^fprec] and was renormalised. *)
Lemma binary_round_aux_shifted ms ez :
  SpecFloat.emin fprec femax <= ez ->
  let e1 := SpecFloat.fexp fprec femax (Zpos (digits2_pos ms) + ez) in
  ez < e1 ->
  let t := Zpos ms / 2 ^ (e1 - ez) in
  exists m e,
    binary_round_aux fprec femax false (Zpos ms) ez loc_Exact
      = (if e <=? femax - fprec then S754_finite false m e else S754_infinity false) /\
    ((e = e1 /\ Zpos m <= t + 1) \/
     (e = e1 + 1 /\ Zpos m = 2 ^ (fprec - 1) /\ t + 1 = 2 ^ fprec)).
Proof using fprec_pos.
  intros Hmin e1 Hlt t. unfold binary_round_aux.
  destruct (shr_fexp_exact fprec femax (Zpos ms) ez) as (R1 & E1 & M1 & _);
    [lia | simpl Zdigits2; fold e1; lia |].
  simpl Zdigits2 in *. fold e1 in E1, M1. fold t in M1.
  assert (E1' : shr_fexp fprec femax (Zpos ms) ez loc_Exact = (R1, e1)) by exact E1.
  rewrite E1'. clear E1 E1'.
  set (m1 := round_nearest_even (shr_m R1) (loc_of_shr_record R1)).
  pose proof (digits2_pos_bounds ms) as [Dlo Dhi].
  set (d := Zpos (digits2_pos ms)) in *.
  assert (Ee1 : e1 = d + ez - fprec).
  { pose proof (fexp_spec fprec femax (d + ez)) as Hs. fold e1 in Hs. lia. }
  assert (En : e1 - ez = d - fprec) by lia.
  assert (P1 : 2 ^ d = 2 ^ fprec * 2 ^ (d - fprec)).
  { rewrite <- Z.pow_add_r by lia. f_equal. lia. }
  assert (P2 : 2 ^ (d - 1) = 2 ^ (fprec - 1) * 2 ^ (d - fprec)).
  { rewrite <- Z.pow_add_r by lia. f_equal. lia. }
  assert (Ppos : 0 < 2 ^ (d - fprec)) by (apply Z.pow_pos_nonneg; lia).
  assert (Ppp : 0 < 2 ^ (fprec - 1)) by (apply Z.pow_pos_nonneg; lia).
  assert (P3 : 2 ^ fprec = 2 * 2 ^ (fprec - 1)).
  { rewrite <- Z.pow_succ_r by lia. f_equal. lia. }
  assert (B1 : 2 ^ (fprec - 1) <= t).
  { unfold t. rewrite En. apply Z.div_le_lower_bound; lia. }
  assert (B2 : t < 2 ^ fprec).
  { unfold t. rewrite En. apply Z.div_lt_upper_bound; lia. }
  assert (Hm1 : m1 = t \/ m1 = t + 1).
  { unfold m1. rewrite M1. apply round_nearest_even_range. }
  assert (Hpos1 : 0 < m1) by lia.
  destruct m1 as [|q|q] eqn:Eq; try lia.
  destruct (Z.eq_dec (Zpos q) (2 ^ fprec)) as [Hc|Hc].
  - assert (Hf : SpecFloat.fexp fprec femax (Zdigits2 (Zpos q) + e1) = e1 + 1).
    { simpl Zdigits2. rewrite (digits2_pos_unique q (fprec + 1)).
      - rewrite fexp_spec. lia.
      - replace (fprec + 1 - 1) with fprec by lia.
        rewrite Z.pow_add_r by lia. simpl (2 ^ 1). lia. }
    destruct (shr_fexp_exact fprec femax (Zpos q) e1) as (R2 & E2 & M2 & _); [lia|lia|].
    rewrite Hf in E2, M2. rewrite E2.
    replace (e1 + 1 - e1) with 1 in M2 by lia. rewrite Hc, P3 in M2.
    simpl (2 ^ 1) in M2. rewrite Z.mul_comm, Z.div_mul in M2 by lia.
    rewrite M2. destruct (2 ^ (fprec - 1)) as [|q'|q'] eqn:Eq'; try lia.
    exists q', (e1 + 1). split; [reflexivity|]. right. lia.
  - assert (Hf : SpecFloat.fexp fprec femax (Zdigits2 (Zpos q) + e1) = e1).
    { simpl Zdigits2. rewrite (digits2_pos_unique q fprec) by lia.
      rewrite fexp_spec. lia. }
    destruct (shr_fexp_exact fprec femax (Zpos q) e1) as (R2 & E2 & M2 & _); [lia|lia|].
    rewrite Hf in E2, M2. rewrite E2.
    replace (e1 - e1) with 0 in M2 by lia. simpl in M2. rewrite Z.div_1_r in M2.
    rewrite M2. exists q, e1. split; [reflexivity|]. left. lia.
Qed.

Lemma binary_round_pos_form p e :
  match binary_round fprec femax false p e with
  | S754_zero false | S754_finite false _ _ | S754_infinity false | S754_nan => True
  | _ => False
  end.
Proof using.
  unfold binary_round. destruct (shl_align p e _) as [mz ez]. apply binary_round_aux_pos_form.
Qed.

Lemma SFltb_finite_le mx ex m e :
  e < ex \/ (e = ex /\ Zpos m <= Zpos mx) ->
  SFltb (S754_finite false mx ex) (S754_finite false m e) = false.
Proof using.
  intros H. unfold SFltb. simpl.
  destruct (Z.compare_spec ex e); try reflexivity; try lia.
  change (Pos.compare_cont Eq mx m) with (Pos.compare mx m).
  destruct (Pos.compare_spec mx m); try reflexivity. lia.
Qed.

Lemma bounded_emin m e : bounded fprec femax m e = true -> SpecFloat.emin fprec femax <= e <= femax - fprec.
Proof using.
  intros B. pose proof (bounded_canonical fprec femax m e B) as Hc.
  pose proof (fexp_spec fprec femax (Zpos (digits2_pos m) + e)) as Hs. rewrite Hc in Hs.
  unfold bounded in B. apply andb_true_iff in B as [_ B]. apply Z.leb_le in B. lia.
Qed.

(** Rounding a positive value below a float of the format does not give
    a float above it. *)
Lemma binary_round_below mx ex p ez :
  bounded fprec femax mx ex = true ->
  SpecFloat.emin fprec femax <= ez <= ex ->
  Zpos p < Zpos mx * 2 ^ (ex - ez) ->
  SFltb (S754_finite false mx ex) (binary_round fprec femax false p ez) = false.
Proof using fprec_pos.
  intros Bx [Hmin Hez] Hp.
  pose proof (bounded_emin mx ex Bx) as [_ Hmax].
  pose proof (bounded_canonical fprec femax mx ex Bx) as Cx.
  set (e1 := SpecFloat.fexp fprec femax (Zpos (digits2_pos p) + ez)).
  assert (Px : 0 < 2 ^ (ex - ez)) by (apply Z.pow_pos_nonneg; lia).
  assert (He1 : e1 <= ex).
  { rewrite <- Cx. apply fexp_mono.
    pose proof (digits2_pos_bounds mx) as [_ Ux].
    pose proof (digits2_pos_bounds p) as [Lp _].
    destruct (Z_lt_le_dec (Zpos (digits2_pos mx) + ex) (Zpos (digits2_pos p) + ez))
      as [Hlt|]; [|assumption].
    exfalso.
    assert (Hpw : 2 ^ (Zpos (digits2_pos mx) + (ex - ez)) <= 2 ^ (Zpos (digits2_pos p) - 1))
      by (apply Z.pow_le_mono_r; lia).
    rewrite Z.pow_add_r in Hpw by lia.
    assert (Zpos mx * 2 ^ (ex - ez) < 2 ^ Zpos (digits2_pos mx) * 2 ^ (ex - ez))
      by (apply Z.mul_lt_mono_pos_r; lia).
    lia. }
  destruct (Z_le_gt_dec e1 ez) as [Hle|Hgt].
  - rewrite binary_round_exact by (fold e1; lia). fold e1.
    apply SFltb_finite_le.
    destruct (Z.eq_dec e1 ex) as [Heq|Hne]; [right|left; lia].
    split; [assumption|].
    rewrite (shl_align_fst p ez e1 Hle).
    replace (ez - e1) with 0 by lia. replace (ex - ez) with 0 in Hp by lia.
    simpl in *. lia.
  - unfold binary_round. fold e1. rewrite shl_align_ge by lia.
    destruct (binary_round_aux_shifted p ez Hmin) as (m & e & -> & Hme); [fold e1; lia|].
    fold e1 in Hme.
    set (t := Zpos p / 2 ^ (e1 - ez)) in *.
    assert (P1 : 0 < 2 ^ (e1 - ez)) by (apply Z.pow_pos_nonneg; lia).
    assert (P2 : 0 < 2 ^ (ex - e1)) by (apply Z.pow_pos_nonneg; lia).
    assert (Psplit : 2 ^ (ex - ez) = 2 ^ (ex - e1) * 2 ^ (e1 - ez)).
    { rewrite <- Z.pow_add_r by lia. f_equal. lia. }
    assert (Ht : t + 1 <= Zpos mx * 2 ^ (ex - e1)).
    { assert (t < Zpos mx * 2 ^ (ex - e1)); [|lia].
      unfold t. apply Z.div_lt_upper_bound; [lia|]. rewrite Psplit in Hp. lia. }
    assert (Hdx : Zpos mx < 2 ^ fprec).
    { pose proof (digits2_pos_bounds mx) as [_ Ux].
      pose proof (fexp_spec fprec femax (Zpos (digits2_pos mx) + ex)) as Hs.
      rewrite Cx in Hs.
      assert (2 ^ Zpos (digits2_pos mx) <= 2 ^ fprec) by (apply Z.pow_le_mono_r; lia).
      lia. }
    destruct Hme as [[-> Hm]|(-> & Hm & Ht')].
    + assert (Hb : (e1 <=? femax - fprec) = true) by (apply Z.leb_le; lia).
      rewrite Hb. apply SFltb_finite_le.
      destruct (Z.eq_dec e1 ex) as [Heq|Hne]; [right|left; lia].
      split; [assumption|]. rewrite Heq, Z.sub_diag in Ht. simpl in Ht. lia.
    + assert (Hlt : e1 < ex).
      { destruct (Z.eq_dec e1 ex) as [Heq|]; [|lia].
        rewrite Heq, Z.sub_diag in Ht. simpl in Ht. lia. }
      assert (Hb : (e1 + 1 <=? femax - fprec) = true) by (apply Z.leb_le; lia).
      rewrite Hb. apply SFltb_finite_le.
      destruct (Z.eq_dec (e1 + 1) ex) as [Heq|Hne]; [right|left; lia].
      split; [assumption|].
      replace (ex - e1) with 1 in Ht by lia. simpl (2 ^ 1) in Ht.
      assert (2 ^ fprec = 2 * 2 ^ (fprec - 1)).
      { rewrite <- Z.pow_succ_r by lia. f_equal. lia. }
      lia.
Qed.

(** Adding a negative float to a finite one does not give more. *)
Lemma SFadd_finite_neg sx mx ex my ey :
  bounded fprec femax mx ex = true -> bounded fprec femax my ey = true ->
  SFltb (S754_finite sx mx ex)
        (SFadd fprec femax (S754_finite sx mx ex) (S754_finite true my ey)) = false.
Proof using fprec_pos.
  intros Bx By.
  pose proof (bounded_emin mx ex Bx) as [Mx _].
  pose proof (bounded_emin my ey By) as [My _].
  destruct sx.
  - (* both negative: the opposite of a sum of positive floats *)
    pose proof (SFadd_finite_pos fprec femax fprec_pos mx ex my ey Bx By) as H.
    unfold SFadd in *. cbn [cond_Zopp Z.opp Z.add binary_normalize] in *.
    rewrite binary_round_opp.
    destruct H as [->|(m & e & -> & Hc)]; [reflexivity|].
    unfold SFltb. simpl. destruct Hc as [Hlt|[-> Hm]].
    + destruct (Z.compare_spec ex e); try reflexivity; lia.
    + rewrite Z.compare_refl. change (Pos.compare_cont Eq mx m) with (Pos.compare mx m).
      destruct (Pos.compare_spec mx m); try reflexivity. lia.
  - unfold SFadd. set (ez := Z.min ex ey).
    assert (Hzx : ez <= ex) by apply Z.le_min_l.
    assert (Hzy : ez <= ey) by apply Z.le_min_r.
    assert (Hzm : SpecFloat.emin fprec femax <= ez) by (unfold ez; lia).
    pose proof (shl_align_fst mx ex ez Hzx) as Ax.
    set (a := fst (shl_align mx ex ez)) in *. set (b := fst (shl_align my ey ez)) in *.
    cbn [cond_Zopp Z.opp Z.add]. rewrite Z.pos_sub_spec.
    destruct (Pos.compare_spec a b) as [Heq|Hlt|Hgt]; cbn [binary_normalize].
    + reflexivity.
    + rewrite binary_round_opp.
      pose proof (binary_round_pos_form (b - a) ez) as Hf.
      now destruct (binary_round fprec femax false (b - a) ez) as [[]|[]| |[] m e].
    + apply binary_round_below; [assumption|lia|]. rewrite <- Ax. lia.
Qed.

End Rounding.

(** A step that is not positive does not move a float forward. *)
Lemma SFadd_nonpos x dt :
  valid_binary x = true -> valid_binary dt = true ->
  SFleb dt (S754_zero false) = true ->
  SFltb x (SF64add x dt) = false /\ (x = S754_nan -> SF64add x dt = S754_nan).
Proof.
  intros Vx Vd Hd. split; [|intros ->; reflexivity].
  destruct dt as [sd|[]| |[] md ed]; try discriminate Hd;
    destruct x as [sx|[]| |sx mx ex]; try reflexivity;
    try (destruct sx; destruct sd; reflexivity);
    try (destruct sx; reflexivity).
  - destruct sd; unfold SF64add, SFadd; apply SFltb_irrefl.
  - simpl in Vx, Vd. unfold SF64add.
    apply (SFadd_finite_neg prec emax ltac:(reflexivity) sx mx ex md ed Vx Vd).
Qed.

Lemma SFnot_ltb_trans t x y :
  SFltb t x = false -> SFltb x y = false -> (x = S754_nan -> y = S754_nan) ->
  SFltb t y = false.
Proof.
  unfold SFltb.
  destruct x as [[]|[]| |[] ? ?];
    [| | | |intros _ _ H; rewrite (H eq_refl); now destruct t as [[]|[]| |[] ? ?]| |];
    intros H1 H2 _; revert H1 H2;
    destruct t as [[]|[]| |[] ? ?], y as [[]|[]| |[] ? ?];
    simpl; intros; try discriminate; try reflexivity; cmp_cases.
Qed.

Local Open Scope float_scope.

Lemma add_nonpos_not_ltb (t x dt : float) :
  (dt <=? 0) = true -> (t <? x) = false -> (t <? x + dt) = false.
Proof.
  rewrite leb_spec, !ltb_spec, add_spec. change (Prim2SF 0) with (S754_zero false).
  intros Hd Ht.
  destruct (SFadd_nonpos (Prim2SF x) (Prim2SF dt) (Prim2SF_valid x) (Prim2SF_valid dt) Hd)
    as [Hx Hn].
  exact (SFnot_ltb_trans _ _ _ Ht Hx Hn).
Qed.


(** ** Not a number *)

Lemma is_nan_spec x : is_nan x = true <-> Prim2SF x = S754_nan.
Proof.
  unfold is_nan. rewrite eqb_spec. unfold SFeqb.
  destruct (Prim2SF x) as [[]|[]| |[] m e]; simpl; try (split; [discriminate|discriminate]);
    try (split; reflexivity).
  all: rewrite Z.compare_refl; change (Pos.compare_cont Eq m m) with (Pos.compare m m);
    rewrite Pos.compare_refl; simpl; split; discriminate.
Qed.

Lemma add_nan_l x y : is_nan x = true -> is_nan (x + y) = true.
Proof. rewrite !is_nan_spec, add_spec. intros ->. reflexivity. Qed.

Lemma add_nan_r x y : is_nan y = true -> is_nan (x + y) = true.
Proof.
  rewrite !is_nan_spec, add_spec. intros ->.
  now destruct (Prim2SF x) as [[]|[]| |[] m e].
Qed.

Lemma ltb_nan_r x y : is_nan y = true -> (x <? y) = false.
Proof.
  rewrite is_nan_spec, ltb_spec. intros ->. unfold SFltb.
  now destruct (Prim2SF x) as [[]|[]| |[] m e].
Qed.

End StepFacts.

(** * Buffers cut into blocks *)

Module BlockFacts.
Import Torch TorchFacts Calls.

Section Lists.
Context {X Y V : Type}.

(** When [map_m] returns, every element was mapped. *)
Lemma map_m_map_inv (g : X -> result Y) (f : V -> X) (dflt : Y) (l : list V) (r : list Y) :
  map_m g (map f l) = Ok r ->
  r = map (fun x => match g (f x) with Ok y => y | Raise _ => dflt end) l /\
  forall x, In x l -> exists y, g (f x) = Ok y.
Proof.
  revert r. induction l as [|x l IH]; intros r H; simpl in H.
  - injection H as <-. split; [reflexivity|intros x []].
  - destruct (g (f x)) as [y|e] eqn:E; [|discriminate]. cbn [result_bind] in H.
    destruct (map_m g (map f l)) as [ys|e]; [|discriminate]. cbn [result_bind] in H.
    injection H as <-. destruct (IH ys eq_refl) as [-> Hall].
    split; [simpl; now rewrite E|].
    intros x' [<-|Hin]; [eauto|auto].
Qed.

Lemma list_tabulate (n : nat) (l : list Y) (d : Y) :
  length l = n -> l = map (fun i => nth i l d) (seq 0 n).
Proof.
  intros H. apply (nth_ext _ _ d d).
  - now rewrite length_map, length_seq.
  - intros i Hi. rewrite nth_map_seq by lia. reflexivity.
Qed.

Lemma concat_chunks (k : nat) : forall (n : nat) (t : list X),
  length t = n * k -> concat (chunks n k t) = t.
Proof.
  induction n as [|n IH]; intros t Hlen; cbn [chunks concat].
  - destruct t; [reflexivity|discriminate].
  - rewrite IH by (rewrite length_skipn; simpl in Hlen; lia).
    apply firstn_skipn.
Qed.

End Lists.

Section Blocks.
Context {A : Type}.

(** Rows taken one by one are the buffer cut into groups. *)
Lemma rows_of_chunks (d0 d1 : nat) (t : tensor2 A) :
  length t = d0 * d1 ->
  tabulate3 d0 d1 (fun a b => nth (a * d1 + b) t []) = chunks d0 d1 t.
Proof.
  intros Hlen. rewrite chunks_tabulate. unfold tabulate3.
  apply map_ext_seq. intros a Ha.
  assert (Hl : length (firstn d1 (skipn (a * d1) t)) = d1)
    by (rewrite length_firstn, length_skipn; nia).
  rewrite (list_tabulate d1 (firstn d1 (skipn (a * d1) t)) [] Hl).
  apply map_ext_seq. intros b Hb. now rewrite nth_firstn_skipn.
Qed.

Lemma block_length (k n : nat) (l : list A) :
  (n + 1) * k <= length l -> length (block k n l) = k.
Proof. intros H. unfold block. rewrite length_firstn, length_skipn. lia. Qed.

Lemma block_of_block (d1 k a b : nat) (l : list A) :
  b < d1 -> block k b (block (d1 * k) a l) = block k (a * d1 + b) l.
Proof.
  intros Hb. unfold block.
  rewrite skipn_firstn_comm, firstn_firstn, skipn_skipn.
  f_equal; [nia|f_equal; lia].
Qed.

Lemma blocks_shape (ni no k : nat) (l : list A) :
  length l = no * ni * k ->
  forall i j, i < ni -> j < no -> length (block k (j * ni + i) l) = k.
Proof.
  intros Hlen i j Hi Hj. apply block_length. rewrite Hlen.
  apply Nat.mul_le_mono_r. nia.
Qed.

(** [reshape] in closed form, for a buffer with any number of rows. *)
Lemma reshape_blocks (d0 d1 : Z) (t : tensor2 A) :
  (0 < d0)%Z -> (0 < d1)%Z -> (numel t mod (d0 * d1) = 0)%Z ->
  reshape d0 d1 t =
    Ok (tabulate3 (Z.to_nat d0) (Z.to_nat d1) (fun a b =>
          block (Z.to_nat (numel t / (d0 * d1))) (a * Z.to_nat d1 + b) (concat t))).
Proof.
  intros H0 H1 Hm. unfold reshape.
  destruct (Z.ltb_spec d0 0); [lia|]. destruct (Z.ltb_spec d1 0); [lia|]. cbn [orb].
  destruct (Z.ltb_spec 0 (d0 * d1)); [|nia]. rewrite Hm. cbn [andb Z.eqb].
  f_equal. rewrite chunks_tabulate, map_map. unfold tabulate3.
  apply map_ext_seq. intros a Ha. rewrite chunks_tabulate.
  apply map_ext_seq. intros b Hb.
  apply (block_of_block (Z.to_nat d1) _ a b (concat t) Hb).
Qed.

Lemma einsum_tabulate3 (d0 d1 : nat) (f : nat -> nat -> list A) :
  0 < d0 -> einsum_ijk_jik (tabulate3 d0 d1 f) = tabulate3 d1 d0 (fun i j => f j i).
Proof.
  intros H0. destruct d0 as [|d0]; [lia|].
  transitivity (map (fun j => map (fun plane => nth j plane []) (tabulate3 (S d0) d1 f))
                  (seq 0 d1)).
  - unfold einsum_ijk_jik, tabulate3. cbn [seq map]. now rewrite length_map, length_seq.
  - unfold tabulate3. apply map_ext_seq. intros i Hi. rewrite map_map.
    apply map_ext_seq. intros j Hj. now rewrite nth_map_seq.
Qed.

Lemma map_m_tabulate3_inv (g : list A -> result (list A)) (d0 d1 : nat)
  (f : nat -> nat -> list A) (r : tensor3 A) :
  map_m (map_m g) (tabulate3 d0 d1 f) = Ok r ->
  forall i j, i < d0 -> j < d1 -> exists y, g (f i j) = Ok y.
Proof.
  unfold tabulate3. intros H i j Hi Hj.
  apply (map_m_map_inv (map_m g) (fun i => map (fun j => f i j) (seq 0 d1)) []) in H
    as [_ H].
  destruct (H i) as [row Hrow]; [apply in_seq; lia|].
  apply (map_m_map_inv g (fun j => f i j) []) in Hrow as [_ Hrow].
  apply Hrow. apply in_seq. lia.
Qed.

Lemma shape3_row_length (d0 d1 k i j : nat) (t : tensor3 A) :
  shape3 d0 d1 k t = true -> i < d0 -> j < d1 -> length (nth j (nth i t []) []) = k.
Proof.
  intros Hs Hi Hj. apply shape3_spec in Hs as [Hlen Hp].
  rewrite Forall_forall in Hp.
  assert (Hin : In (nth i t []) t) by (apply nth_In; lia).
  apply Hp, shape2_spec in Hin as [Hl Hr]. rewrite Forall_forall in Hr.
  apply Hr, nth_In. lia.
Qed.

Lemma shape3_tabulate3 (d0 d1 k : nat) (t : tensor3 A) :
  shape3 d0 d1 k t = true -> t = tabulate3 d0 d1 (fun i j => nth j (nth i t []) []).
Proof.
  intros Hs. apply shape3_spec in Hs as [Hlen Hp]. rewrite Forall_forall in Hp.
  unfold tabulate3. rewrite (list_tabulate d0 t [] Hlen) at 1.
  apply map_ext_seq. intros i Hi.
  assert (Hin : In (nth i t []) t) by (apply nth_In; lia).
  apply Hp, shape2_spec in Hin as [Hl _].
  exact (list_tabulate d1 _ [] Hl).
Qed.

Lemma cat_last_shape (d0 d1 k k' : nat) (p q : tensor3 A) :
  shape3 d0 d1 k p = true -> shape3 d0 d1 k' q = true ->
  exists r, cat_last p q = Ok r /\ shape3 d0 d1 (k + k') r = true.
Proof.
  intros Hp Hq.
  set (fp := fun i j => nth j (nth i p []) []).
  set (fq := fun i j => nth j (nth i q []) []).
  assert (Ep : p = tabulate3 d0 d1 fp) by exact (shape3_tabulate3 _ _ _ p Hp).
  assert (Eq : q = tabulate3 d0 d1 fq) by exact (shape3_tabulate3 _ _ _ q Hq).
  assert (Hc : cat_last p q = Ok (tabulate3 d0 d1 (fun i j => fp i j ++ fq i j))).
  { rewrite Ep at 1. rewrite Eq at 1. unfold cat_last.
    now apply zip_with_m_tabulate3. }
  eexists. split; [exact Hc|]. apply tabulate3_shape. intros i j Hi Hj.
  rewrite length_app. unfold fp, fq.
  now rewrite (shape3_row_length _ _ _ i j p Hp Hi Hj), (shape3_row_length _ _ _ i j q Hq Hi Hj).
Qed.

(** ** The quaternion of a pose row of any width *)

Import MathUtils.

Lemma requat_length (row q : list A) :
  convert_quat_row wxyz (slice 3 7 row) = Ok q ->
  7 <= length row /\ length (requat row) = length row.
Proof.
  intros Hq. unfold requat.
  assert (Hs : length (slice 3 7 row) = 4).
  { destruct (slice 3 7 row) as [|a [|b [|c [|d [|]]]]]; try discriminate Hq. reflexivity. }
  assert (H7 : 7 <= length row).
  { unfold slice in Hs. rewrite length_firstn, length_skipn in Hs. lia. }
  split; [exact H7|].
  rewrite !length_app, length_firstn, length_skipn.
  destruct (slice 3 7 row) as [|a [|b [|c [|d [|]]]]]; try discriminate Hs.
  cbn [length]. lia.
Qed.

Lemma requat_assign (row q : list A) :
  convert_quat_row wxyz (slice 3 7 row) = Ok q ->
  (if Nat.eqb (length q) (length (slice 3 7 row))
   then Ok (firstn 3 row ++ q ++ skipn 7 row)
   else Raise RuntimeError) = Ok (requat row).
Proof.
  intros Hq. unfold requat.
  destruct (slice 3 7 row) as [|a [|b [|c [|d [|]]]]]; try discriminate Hq.
  injection Hq as <-. reflexivity.
Qed.

End Blocks.
End BlockFacts.

(** * Reads on any view, in any state *)

Module CallFacts.
Import Torch Physx MathUtils Buffers Collection TorchFacts CollectionFacts Float64.
Import Calls BlockFacts.

Section Reads.
Context {A : Type}.
Variable sentinel : float.

Abbreviation container := (@RigidObjectCollectionData A).
Abbreviation view := (RigidBodyView A).

Lemma read_eq (q : quantity) (v : view) (s : container) :
  read q v s =
    if stale q s then
      match recompute q s v with
      | Ok d => {| returned := Ok (Some d); self_after := refreshed q s d;
                   queried := getters q |}
      | Raise e => {| returned := Raise e; self_after := s; queried := calls_made q s v |}
      end
    else {| returned := Ok (data (cache q s)); self_after := s; queried := [] |}.
Proof.
  destruct (stale q s) eqn:H; [now apply read_stale|now apply read_fresh].
Qed.

Lemma read_queries_getters (q : quantity) (v : view) (s : container) (c : call) :
  In c (queried (read q v s)) -> In c (getters q).
Proof.
  destruct (read_spec q v s) as [Hf|d Hs Hd|e Hs He]; cbn [queried]; auto.
  - intros [].
  - destruct q; cbn [calls_made getters]; [|auto].
    destruct (pose_of_view s v); simpl; tauto.
Qed.

Lemma read_recomputes_at_most_once (q : quantity) (v : view) (s : container) :
  recomputations q (queried (read q v s)) <= 1.
Proof.
  destruct (read_spec q v s) as [Hf|d Hs Hd|e Hs He]; cbn [queried].
  - unfold recomputations. cbn [filter length]. lia.
  - now rewrite recomputations_getters.
  - now rewrite recomputations_calls_made.
Qed.

(** A recomputation reads the container's two sizes and nothing else of it. *)
Lemma recompute_by_sizes (q : quantity) (s s' : container) (v : view) :
  num_objects s' = num_objects s -> num_instances s' = num_instances s ->
  recompute q s' v = recompute q s v /\ calls_made q s' v = calls_made q s v.
Proof.
  intros Ho Hi.
  destruct q; cbn [recompute calls_made]; unfold state_of_view, pose_of_view, acc_of_view,
    _view_to_data_order; now rewrite Ho, Hi.
Qed.

(** A read of [q] after a read of the other quantity. *)
Lemma read_after_other (q : quantity) (v : view) (s s' : container) :
  num_objects s' = num_objects s -> num_instances s' = num_instances s ->
  _sim_timestamp s' = _sim_timestamp s -> cache q s' = cache q s ->
  returned (read q v s') = returned (read q v s) /\
  queried (read q v s') = queried (read q v s).
Proof.
  intros Ho Hi Ht Hc. rewrite !read_eq.
  unfold stale. rewrite Hc, Ht. fold (stale q s).
  destruct (recompute_by_sizes q s s' v Ho Hi) as [-> ->].
  destruct (stale q s); [destruct (recompute q s v)|]; now cbn [returned queried].
Qed.

(** ** Without instances *)





(** ** A clock that is not a number *)

Lemma nan_clock_run (acts : list action) : forall s : container,
  is_nan (_sim_timestamp s) = true ->
  is_nan (_sim_timestamp (run s acts)) = true /\ forall q, cache q (run s acts) = cache q s.
Proof.
  induction acts as [|a acts IH]; intros s Hn; [split; auto|].
  change (run s (a :: acts)) with (run (step s a) acts).
  assert (Hs : is_nan (_sim_timestamp (step s a)) = true
               /\ forall q, cache q (step s a) = cache q s).
  { destruct a as [dt|q v]; cbn [step].
    - split; [now apply StepFacts.add_nan_l|intros q; apply update_cache].
    - rewrite read_fresh by (now apply StepFacts.ltb_nan_r). cbn [self_after]. auto. }
  destruct Hs as [Hn' Hc]. destruct (IH _ Hn') as [Hn'' Hc'].
  split; [exact Hn''|]. intros q. now rewrite Hc', Hc.
Qed.

(** ** Steps that are not positive *)

Lemma nonpositive_updates (dts : list float) (t : float) : forall s : container,
  Forall nonpositive_step dts ->
  (t <? _sim_timestamp s)%float = false ->
  (t <? _sim_timestamp (fold_left update dts s))%float = false.
Proof.
  induction dts as [|dt dts IH]; intros s Hd Ht; [exact Ht|].
  inversion Hd as [|? ? Hdt Hrest]; subst. cbn [fold_left].
  apply IH; [assumption|]. rewrite update_clock.
  now apply StepFacts.add_nonpos_not_ltb.
Qed.

Lemma updates_cache (q : quantity) (dts : list float) : forall s : container,
  cache q (fold_left update dts s) = cache q s.
Proof.
  induction dts as [|dt dts IH]; intros s; [reflexivity|].
  cbn [fold_left]. now rewrite IH, update_cache.
Qed.

(** ** The reorder of a buffer with any number of rows *)

Lemma view_to_data_order_blocks (s : container) (t : tensor2 A) :
  (0 < num_objects s)%Z -> (0 < num_instances s)%Z ->
  (numel t mod (num_objects s * num_instances s) = 0)%Z ->
  _view_to_data_order s t =
    Ok (tabulate3 (Z.to_nat (num_instances s)) (Z.to_nat (num_objects s)) (fun i j =>
          block (components_per_pair s t) (j * Z.to_nat (num_instances s) + i) (concat t))).
Proof.
  intros Ho Hi Hm. unfold _view_to_data_order.
  rewrite (reshape_blocks _ _ t Ho Hi Hm). cbn [result_map result_bind].
  f_equal. apply einsum_tabulate3. lia.
Qed.

Lemma view_to_data_order_ok_blocks (s : container) (t : tensor2 A) (r : tensor3 A) :
  _view_to_data_order s t = Ok r ->
  let ni := Z.to_nat (num_instances s) in
  let no := Z.to_nat (num_objects s) in
  let k := components_per_pair s t in
  r = tabulate3 ni no (fun i j => block k (j * ni + i) (concat t)) /\
  length (concat t) = no * ni * k /\ 0 < ni /\ 0 < no.
Proof.
  intros Hr ni no k.
  destruct (view_to_data_order_ok_sizes s t r Hr) as (Ho & Hi & Hm).
  rewrite (view_to_data_order_blocks s t Ho Hi Hm) in Hr. injection Hr as <-.
  split; [reflexivity|]. split; [|unfold ni, no; lia].
  apply Z.mod_divide in Hm; [|nia]. destruct Hm as [c Hc].
  assert (Hq : (numel t / (num_objects s * num_instances s) = c)%Z)
    by (rewrite Hc; apply Z.div_mul; nia).
  unfold k, components_per_pair, no, ni. rewrite Hq. unfold numel in Hc.
  assert (0 <= c)%Z by nia.
  apply Nat2Z.inj. rewrite !Nat2Z.inj_mul, !Z2Nat.id by lia. rewrite Hc. ring.
Qed.

Lemma view_to_data_order_shape (s : container) (t : tensor2 A) (r : tensor3 A) :
  _view_to_data_order s t = Ok r ->
  shape3 (Z.to_nat (num_instances s)) (Z.to_nat (num_objects s)) (components_per_pair s t) r
    = true.
Proof.
  intros H. destruct (view_to_data_order_ok_blocks s t r H) as (-> & Hlen & _).
  apply tabulate3_shape. exact (blocks_shape _ _ _ _ Hlen).
Qed.

(** ** The shape of whatever a refresh produces *)

Lemma pose_of_view_shape (s : container) (v : view) (pose : tensor3 A) :
  pose_of_view s v = Ok pose ->
  7 <= components_per_pair s (get_transforms v) /\
  shape3 (Z.to_nat (num_instances s)) (Z.to_nat (num_objects s))
    (components_per_pair s (get_transforms v)) pose = true.
Proof.
  unfold pose_of_view, clone.
  destruct (_view_to_data_order s (get_transforms v)) as [r|e] eqn:E; [|discriminate].
  cbn [result_bind].
  destruct (view_to_data_order_ok_blocks s _ r E) as (-> & Hlen & Hi & Ho).
  set (ni := Z.to_nat (num_instances s)) in *. set (no := Z.to_nat (num_objects s)) in *.
  set (k := components_per_pair s (get_transforms v)) in *.
  set (f := fun i j => block k (j * ni + i) (concat (get_transforms v))).
  assert (Hf : forall i j, i < ni -> j < no -> length (f i j) = k)
    by (exact (blocks_shape ni no k _ Hlen)).
  rewrite slice_last_tabulate3. unfold convert_quat.
  destruct (map_m (map_m (convert_quat_row wxyz)) _) as [quat|e] eqn:Q; [|discriminate].
  cbn [result_bind].
  pose proof (map_m_tabulate3_inv _ _ _ _ _ Q) as Hq.
  assert (Hk : 7 <= k).
  { destruct (Hq 0 0 Hi Ho) as [y Hy]. rewrite <- (Hf 0 0 Hi Ho).
    now apply (requat_length _ y). }
  intros Hp. split; [exact Hk|].
  assert (Hp' : assign_last 3 7 (tabulate3 ni no f) quat
                = Ok (tabulate3 ni no (fun i j => requat (f i j)))).
  { rewrite (map_m_tabulate3 (convert_quat_row wxyz) ni no _
               (fun i j => match convert_quat_row wxyz (slice 3 7 (f i j)) with
                           | Ok y => y
                           | Raise _ => []
                           end)) in Q.
    2:{ intros i j Hi' Hj'. now destruct (Hq i j Hi' Hj') as [y ->]. }
    injection Q as <-. unfold assign_last.
    apply zip_with_m_tabulate3. intros i j Hi' Hj'.
    destruct (Hq i j Hi' Hj') as [y Hy]. rewrite Hy. now apply requat_assign. }
  rewrite Hp' in Hp. injection Hp as <-.
  apply tabulate3_shape. intros i j Hi' Hj'.
  destruct (Hq i j Hi' Hj') as [y Hy].
  destruct (requat_length _ _ Hy) as [_ ->]. now apply Hf.
Qed.

Lemma recompute_shape (q : quantity) (s : container) (v : view) (d : tensor3 A) :
  recompute q s v = Ok d ->
  shape3 (Z.to_nat (num_instances s)) (Z.to_nat (num_objects s)) (refreshed_width q s v) d
    = true /\
  (q = State -> 7 <= components_per_pair s (get_transforms v)).
Proof.
  destruct q; cbn [recompute refreshed_width].
  - unfold state_of_view.
    destruct (pose_of_view s v) as [pose|e] eqn:P; [|discriminate]. cbn [result_bind].
    destruct (_view_to_data_order s (get_velocities v)) as [vel|e] eqn:V; [|discriminate].
    cbn [result_bind]. intros H.
    destruct (pose_of_view_shape s v pose P) as [H7 Hp].
    pose proof (view_to_data_order_shape s _ vel V) as Hv.
    destruct (cat_last_shape _ _ _ _ pose vel Hp Hv) as (r & Hr & Hs).
    split; [congruence|auto].
  - unfold acc_of_view, clone. intros H. split; [|discriminate].
    now apply view_to_data_order_shape.
Qed.

Lemma step_leading_sizes (s : container) (a : action) :
  leading_sizes s -> leading_sizes (step s a).
Proof.
  intros H. destruct a as [dt|q v]; cbn [step].
  - intros q d. rewrite update_cache. apply H.
  - intros q' d'. destruct (read_sizes q v s) as [-> ->].
    destruct (quantity_eq_dec q' q) as [->|Hq];
      [|rewrite read_other by assumption; apply H].
    destruct (read_spec q v s) as [Hf|d Hs Hd|e Hs He]; cbn [self_after]; try apply H.
    rewrite refreshed_cache. cbn [data]. intros [= <-].
    destruct (recompute_shape q s v d Hd) as [Hshape H7].
    exists (refreshed_width q s v). split; [exact Hshape|].
    intros ->. specialize (H7 eq_refl). cbn [refreshed_width]. lia.
Qed.

Lemma run_leading_sizes (acts : list action) : forall s : container,
  leading_sizes s -> leading_sizes (run s acts).
Proof.
  induction acts as [|a acts IH]; intros s H; [exact H|].
  change (run s (a :: acts)) with (run (step s a) acts).
  now apply IH, step_leading_sizes.
Qed.

(** ** Two reads of the state inside one property *)

Lemma two_slices_one_read (f : tensor3 A -> tensor3 A -> result (tensor3 A))
  (a b c d : nat) (v : view) (s : container) :
  bind (bind object_state_w (fun t => lift (subscript_last a b t))) (fun x =>
  bind (bind object_state_w (fun t => lift (subscript_last c d t))) (fun y =>
  lift (f x y))) v s
  = Frames.computed_from_state v s (fun t => f (slice_last a b t) (slice_last c d t)).
Proof.
  unfold Frames.computed_from_state.
  unfold bind at 1. rewrite sliced_property.
  change object_state_w with (read (A := A) State).
  destruct (returned (read State v s)) as [[t|]|e] eqn:E;
    cbn [returned self_after queried result_bind subscript_last];
    try reflexivity.
  unfold bind at 1. rewrite sliced_property.
  rewrite (read_fresh State v _ (read_returns_fresh State v s _ E)).
  cbn [returned self_after queried result_bind].
  rewrite (read_returns_cache State v s _ E).
  cbn [subscript_last lift returned self_after queried result_bind].
  now rewrite !app_nil_r.
Qed.

End Reads.
End CallFacts.

(** * The container on any view and with any step *)

Module Behaviour.
Import Torch Physx MathUtils Buffers Collection TorchFacts CollectionFacts Float64.
Import Calls BlockFacts CallFacts.

Section Buffers.
Context {A : Type}.
Variable sentinel : float.

Abbreviation container := (@RigidObjectCollectionData A).
Abbreviation view := (RigidBodyView A).

(** X3.  [_view_to_data_order] on a buffer of any shape: it returns
    exactly when both sizes are positive and [num_objects * num_instances]
    divides the number of elements, and raises a [RuntimeError] otherwise;
    what it returns has shape (num_instances, num_objects, k) for
    [k = numel / (num_objects * num_instances)], and its entry [i, j] is
    block number [j * num_instances + i] of [k] consecutive elements of the
    flattened buffer (rows of the buffer are split or merged when [k] is
    not their width). *)
Theorem view_to_data_order_regroups_flat_storage (self : container) (data : tensor2 A) :
  let ni := Z.to_nat (num_instances self) in
  let no := Z.to_nat (num_objects self) in
  let k := components_per_pair self data in
  ((exists r, _view_to_data_order self data = Ok r) <->
   (0 < num_objects self /\ 0 < num_instances self /\
    numel data mod (num_objects self * num_instances self) = 0)%Z) /\
  (forall e, _view_to_data_order self data = Raise e -> e = RuntimeError) /\
  (forall r, _view_to_data_order self data = Ok r ->
     shape3 ni no k r = true /\
     forall i j, i < ni -> j < no ->
       nth j (nth i r []) [] = block k (j * ni + i) (concat data)).
Proof.
  intros ni no k. split; [|split].
  - split.
    + intros [r Hr]. now apply view_to_data_order_ok_sizes in Hr.
    + intros (Ho & Hi & Hm). rewrite (view_to_data_order_blocks self data Ho Hi Hm). eauto.
  - intros e He. destruct (divides_into self data) eqn:Hd.
    + unfold divides_into in Hd. rewrite !andb_true_iff, !Z.ltb_lt, Z.eqb_eq in Hd.
      destruct Hd as [[Ho Hi] Hm].
      rewrite (view_to_data_order_blocks self data Ho Hi Hm) in He. discriminate.
    + rewrite (view_to_data_order_unfit self data Hd) in He. congruence.
  - intros r Hr. split; [now apply view_to_data_order_shape|].
    destruct (view_to_data_order_ok_blocks self data r Hr) as (-> & _).
    intros i j Hi Hj. now rewrite tabulate3_nth.
Qed.

(** X4.  From construction on, through any updates and reads on any
    views: whatever a read of a cached quantity returns has the leading
    sizes (num_instances, num_objects) and rows of one width; a state has
    at least the 7 components of a pose; and when the read refreshed the
    cache, the width is the number of components per pair of the view's
    buffers (pose plus velocity, or acceleration). *)
Theorem returned_buffers_keep_leading_sizes (v0 : view) (n : Z) (s0 : container)
  (acts : list action) (q : quantity) (v : view) (d : tensor3 A) :
  __init__ sentinel v0 n = Ok s0 ->
  let s := run s0 acts in
  returned (read q v s) = Ok (Some d) ->
  exists w,
    shape3 (Z.to_nat (num_instances s)) (Z.to_nat (num_objects s)) w d = true /\
    (q = State -> 7 <= w) /\
    (stale q s = true -> w = refreshed_width q s v).
Proof.
  intros E s Hd.
  assert (Hinv : leading_sizes s).
  { apply run_leading_sizes. intros q' d' Hc.
    apply init_sizes in E as (_ & _ & _ & _ & Hb). rewrite Hb in Hc. discriminate. }
  destruct (read_spec q v s) as [Hf|d' Hs Hd'|e Hs He]; cbn [returned] in Hd;
    [| |discriminate].
  - injection Hd as Hd. destruct (Hinv q d Hd) as (w & Hw & H7).
    exists w. split; [exact Hw|]. split; [exact H7|]. rewrite Hf. discriminate.
  - injection Hd as <-. destruct (recompute_shape q s v d' Hd') as [Hshape H7].
    exists (refreshed_width q s v). split; [exact Hshape|]. split; [|reflexivity].
    intros ->. specialize (H7 eq_refl). cbn [refreshed_width]. lia.
Qed.


(** X6.  A collection built with [n >= 1] objects on a view of
    [c * n] bodies, [c >= 1], has [c] instances; on a view whose buffers
    have one row per body (7 pose, 6 velocity and 6 acceleration
    components) the first read of each cached quantity, with no update
    before it, returns a buffer of shape (c, n, 13) for the state and
    (c, n, 6) for the acceleration. *)
Theorem constructed_container_first_reads (v0 v : view) (n c : Z) (s : container) :
  (sentinel <? 0)%float = true ->
  __init__ sentinel v0 n = Ok s ->
  (0 < n)%Z -> (0 < c)%Z -> count v0 = (c * n)%Z ->
  shape2 (Z.to_nat (count v0)) 7 (get_transforms v) = true ->
  shape2 (Z.to_nat (count v0)) 6 (get_velocities v) = true ->
  shape2 (Z.to_nat (count v0)) 6 (get_accelerations v) = true ->
  num_instances s = c /\
  (exists t, returned (object_state_w v s) = Ok (Some t) /\
             shape3 (Z.to_nat c) (Z.to_nat n) 13 t = true) /\
  (exists t, returned (object_acc_w v s) = Ok (Some t) /\
             shape3 (Z.to_nat c) (Z.to_nat n) 6 t = true).
Proof.
  intros Hs E Hn Hc Hcount Ht Hv Ha.
  pose proof (init_clock_inv sentinel v0 n s Hs E) as [_ Hclock].
  apply init_sizes in E as (_ & Ho & Hi & Hz & Hb).
  assert (Hi' : num_instances s = c) by (rewrite Hi, Hcount; apply Z.div_mul; lia).
  split; [exact Hi'|].
  assert (Hl : layout s v = true).
  { unfold layout. rewrite Hi', Ho, <- Hcount. now rewrite Ht, Hv, Ha. }
  assert (Hst : forall q, stale q s = true).
  { intros q. unfold stale. rewrite Hb, Hz. exact Hs. }
  assert (Hr : forall q, exists t, returned (read q v s) = Ok (Some t) /\
                shape3 (Z.to_nat c) (Z.to_nat n) (width q) t = true).
  { intros q. rewrite (read_stale q v s (Hst q)).
    destruct (recompute_layout s v ltac:(lia) ltac:(lia) q Hl) as (d & -> & Hshape).
    cbn [returned]. exists d. split; [reflexivity|]. now rewrite <- Hi', <- Ho. }
  split; [exact (Hr State)|exact (Hr Acc)].
Qed.

(** X7.  A read that raises is not cached: the container is left as it
    was, the read had started one recomputation, and the next read of the
    quantity starts one again and returns or raises what the view of that
    moment gives. *)
Theorem failed_read_is_not_cached (q : quantity) (v v' : view) (s : container)
  (e : exception) :
  returned (read q v s) = Raise e ->
  let o := read q v s in
  self_after o = s /\
  recomputations q (queried o) = 1 /\
  let o' := read q v' (self_after o) in
  recomputations q (queried o') = 1 /\
  returned o' = result_map Some (recompute q s v').
Proof.
  intros He o. subst o.
  destruct (read_spec q v s) as [Hf|d Hs Hd|e' Hs He']; cbn [returned self_after queried] in *;
    try discriminate.
  split; [reflexivity|]. split; [apply recomputations_calls_made|].
  rewrite (read_stale q v' s Hs).
  destruct (recompute q s v') as [d|e'']; cbn [returned queried result_map result_bind].
  - now rewrite recomputations_getters.
  - now rewrite recomputations_calls_made.
Qed.

(** X8.  A read of a cached quantity changes nothing of the container but
    that quantity's own cache (the two sizes, the simulation timestamp and
    the other cache stay as they were), starts at most one recomputation,
    and calls no getter of the view but its own: [object_state_w] never
    calls [get_accelerations], [object_acc_w] never calls [get_transforms]
    or [get_velocities]. *)
Theorem read_touches_only_its_cache (q : quantity) (v : view) (s : container) :
  let o := read q v s in
  num_objects (self_after o) = num_objects s /\
  num_instances (self_after o) = num_instances s /\
  _sim_timestamp (self_after o) = _sim_timestamp s /\
  (forall q', q' <> q -> cache q' (self_after o) = cache q' s) /\
  recomputations q (queried o) <= 1 /\
  (forall c, In c (queried o) -> In c (getters q)).
Proof.
  intros o. subst o. destruct (read_sizes q v s) as [Ho Hi].
  split; [exact Ho|]. split; [exact Hi|]. split; [apply read_clock|].
  split; [intros q' Hq; now apply read_other|].
  split; [apply read_recomputes_at_most_once|].
  intros c. apply read_queries_getters.
Qed.

(** X9.  Reads of the two cached quantities commute: whether
    [object_state_w] or [object_acc_w] is read first, each returns the same
    value, calls the same getters, and the container ends in the same
    state. *)
Theorem reads_of_both_quantities_commute (v1 v2 : view) (s : container) :
  let state_first := read Acc v2 (self_after (read State v1 s)) in
  let acc_first := read State v1 (self_after (read Acc v2 s)) in
  returned state_first = returned (read Acc v2 s) /\
  queried state_first = queried (read Acc v2 s) /\
  returned acc_first = returned (read State v1 s) /\
  queried acc_first = queried (read State v1 s) /\
  self_after state_first = self_after acc_first.
Proof.
  cbv zeta.
  destruct (read_sizes State v1 s) as [Ho1 Hi1]. destruct (read_sizes Acc v2 s) as [Ho2 Hi2].
  destruct (read_after_other Acc v2 s _ Ho1 Hi1 (read_clock State v1 s)
              (read_other State Acc v1 s ltac:(discriminate))) as [Ra Qa].
  destruct (read_after_other State v1 s _ Ho2 Hi2 (read_clock Acc v2 s)
              (read_other Acc State v2 s ltac:(discriminate))) as [Rs Qs].
  split; [exact Ra|]. split; [exact Qa|]. split; [exact Rs|]. split; [exact Qs|].
  rewrite (read_eq Acc v2 (self_after _)), (read_eq State v1 (self_after _)).
  unfold stale.
  rewrite (read_other State Acc v1 s ltac:(discriminate)), (read_clock State v1 s).
  rewrite (read_other Acc State v2 s ltac:(discriminate)), (read_clock Acc v2 s).
  fold (stale Acc s). fold (stale State s).
  destruct (recompute_by_sizes Acc s _ v2 Ho1 Hi1) as [-> ->].
  destruct (recompute_by_sizes State s _ v1 Ho2 Hi2) as [-> ->].
  rewrite (read_eq State v1 s), (read_eq Acc v2 s).
  destruct (stale State s), (stale Acc s);
    try destruct (recompute State s v1); try destruct (recompute Acc s v2);
    reflexivity.
Qed.

(** X10.  [update] does not check its step.  Once it was called with a
    NaN, the simulation timestamp is NaN and stays so through every later
    update, whatever its step; no cache is ever stale again: every read
    returns what its cache held when the NaN arrived ([None] if it was
    never read) and the view is never called. *)
Theorem nan_step_freezes_caches (s : container) (dt : float) (acts : list action) :
  is_nan dt = true ->
  let s' := run (update s dt) acts in
  is_nan (_sim_timestamp s') = true /\
  (forall q, cache q s' = cache q s) /\
  forall q v,
    read q v s' = {| returned := Ok (data (cache q s)); self_after := s'; queried := [] |}.
Proof.
  intros Hd s'.
  destruct (nan_clock_run acts (update s dt)) as [Hn Hc];
    [now apply StepFacts.add_nan_r|].
  fold s' in Hn, Hc.
  assert (Hc' : forall q, cache q s' = cache q s)
    by (intros q; now rewrite Hc, update_cache).
  split; [exact Hn|]. split; [exact Hc'|].
  intros q v. rewrite read_fresh by (now apply StepFacts.ltb_nan_r).
  now rewrite Hc'.
Qed.

(** X11.  Updates with steps that are not positive ([dt <= 0], which the
    code accepts) never move the simulation timestamp forward and
    invalidate nothing: a cache that was fresh before them is fresh after
    them, and its read returns the cached data without calling the view. *)
Theorem nonpositive_steps_invalidate_nothing (q : quantity) (v : view) (s : container)
  (dts : list float) :
  Forall nonpositive_step dts ->
  stale q s = false ->
  let s' := fold_left update dts s in
  (_sim_timestamp s <? _sim_timestamp s')%float = false /\
  stale q s' = false /\
  read q v s' = {| returned := Ok (data (cache q s)); self_after := s'; queried := [] |}.
Proof.
  intros Hd Hs s'.
  assert (Hst : stale q s' = false).
  { unfold stale, s'. rewrite updates_cache. now apply nonpositive_updates. }
  split; [apply nonpositive_updates; [assumption|apply Float64Facts.ltb_irrefl]|].
  split; [exact Hst|]. rewrite (read_fresh q v s' Hst). unfold s'.
  now rewrite updates_cache.
Qed.

(** X13.  The reorder is a permutation of the rows: for at least one
    instance and one object and a buffer with one row per pair, exchanging
    the first two axes of what [_view_to_data_order] returns and merging
    them again gives the buffer back, row for row; no row is dropped or
    repeated. *)
Theorem view_to_data_order_permutes_rows (self : container) (data : tensor2 A) (k : nat) :
  (0 < num_instances self)%Z ->
  (0 < num_objects self)%Z ->
  shape2 (Z.to_nat (num_instances self * num_objects self)) k data = true ->
  exists r, _view_to_data_order self data = Ok r /\
            concat (einsum_ijk_jik r) = data.
Proof.
  intros Hi Ho Hs. rewrite (view_to_data_order_rows self data k Hi Ho Hs).
  eexists. split; [reflexivity|].
  apply shape2_spec in Hs as [Hlen _].
  rewrite Z2Nat.inj_mul in Hlen by lia.
  rewrite einsum_tabulate3 by lia.
  rewrite (rows_of_chunks (Z.to_nat (num_objects self)) (Z.to_nat (num_instances self)) data)
    by lia.
  apply concat_chunks. lia.
Qed.

End Buffers.

Section BodyFrame.
Context {A : Type}.
Variable quat_rotate_inverse : tensor3 A -> tensor3 A -> result (tensor3 A).
Variable GRAVITY_VEC_W : tensor3 A.

(** X12.  [object_lin_vel_b] and [object_ang_vel_b] read two properties
    of the state and [projected_gravity_b] one, yet each amounts to a
    single read of [object_state_w]: the view is queried and the cache
    written as by that one read (at most one recomputation, the
    acceleration cache untouched), and the rotation is applied to slices of
    one and the same buffer, the orientation 3:7 and the velocity 7:10 or
    10:13 (or the gravity direction). *)
Theorem body_frame_properties_read_state_once (v : RigidBodyView A)
  (s : @RigidObjectCollectionData A) :
  Frames.object_lin_vel_b quat_rotate_inverse v s
    = Frames.computed_from_state v s (fun t =>
        quat_rotate_inverse (slice_last 3 7 t) (slice_last 7 10 t)) /\
  Frames.object_ang_vel_b quat_rotate_inverse v s
    = Frames.computed_from_state v s (fun t =>
        quat_rotate_inverse (slice_last 3 7 t) (slice_last 10 13 t)) /\
  Frames.projected_gravity_b quat_rotate_inverse GRAVITY_VEC_W v s
    = Frames.computed_from_state v s (fun t =>
        quat_rotate_inverse (slice_last 3 7 t) GRAVITY_VEC_W) /\
  recomputations State (queried (object_state_w v s)) <= 1 /\
  _object_acc_w (self_after (object_state_w v s)) = _object_acc_w s.
Proof.
  split; [apply two_slices_one_read|]. split; [apply two_slices_one_read|].
  split; [|split].
  - unfold Frames.projected_gravity_b, object_quat_w, Frames.computed_from_state.
    unfold bind at 1. rewrite sliced_property.
    destruct (returned (object_state_w v s)) as [[t|]|e];
      cbn [returned self_after queried result_bind subscript_last lift]; try reflexivity.
    now rewrite app_nil_r.
  - exact (read_recomputes_at_most_once State v s).
  - exact (read_other State Acc v s ltac:(discriminate)).
Qed.

End BodyFrame.

(** ** The theorems at work *)

Import Examples Scenarios.

Lemma returned_buffers_keep_leading_sizes_witness :
  let s := run data_1x1 [] in
  exists w,
    shape3 (Z.to_nat (num_instances s)) (Z.to_nat (num_objects s)) w
      [[[1; 2; 3; 7; 4; 5; 6; 8; 9; 10; 11; 12; 13]]]%Z = true /\
    (State = State -> 7 <= w) /\
    (stale State s = true -> w = refreshed_width State s view_1x1).
Proof.
  exact (returned_buffers_keep_leading_sizes new_timestamp view_1x1 1%Z data_1x1 []
           State view_1x1 [[[1; 2; 3; 7; 4; 5; 6; 8; 9; 10; 11; 12; 13]]]%Z
           eq_refl eq_refl).
Defined.


Lemma constructed_container_first_reads_witness :
  num_instances data_2x3 = 2%Z /\
  (exists t, returned (object_state_w view_2x3 data_2x3) = Ok (Some t) /\
             shape3 (Z.to_nat 2) (Z.to_nat 3) 13 t = true) /\
  (exists t, returned (object_acc_w view_2x3 data_2x3) = Ok (Some t) /\
             shape3 (Z.to_nat 2) (Z.to_nat 3) 6 t = true).
Proof.
  apply (constructed_container_first_reads new_timestamp view_2x3 view_2x3 3%Z 2%Z data_2x3);
    try reflexivity.
Defined.

Lemma failed_read_is_not_cached_witness :
  let o := read State view_3 data_3 in
  self_after o = data_3 /\
  recomputations State (queried o) = 1 /\
  let o' := read State view_1x1 (self_after o) in
  recomputations State (queried o') = 1 /\
  returned o' = result_map Some (recompute State data_3 view_1x1).
Proof.
  exact (failed_read_is_not_cached State view_3 view_1x1 data_3 RuntimeError eq_refl).
Defined.

Lemma nan_step_freezes_caches_witness :
  let s' := run (update data_1x1 nan) [Update 1; Read State view_1x1] in
  is_nan (_sim_timestamp s') = true /\
  (forall q, cache q s' = cache q data_1x1) /\
  forall q v,
    read q v s' = {| returned := Ok (data (cache q data_1x1)); self_after := s';
                     queried := [] |}.
Proof.
  exact (nan_step_freezes_caches data_1x1 nan [Update 1; Read State view_1x1] eq_refl).
Defined.

Lemma nonpositive_steps_invalidate_nothing_witness :
  let s := self_after (read State view_1x1 (update data_1x1 1)) in
  let s' := fold_left update [(-1)%float; 0%float] s in
  (_sim_timestamp s <? _sim_timestamp s')%float = false /\
  stale State s' = false /\
  read State view_3 s' = {| returned := Ok (data (cache State s)); self_after := s';
                            queried := [] |}.
Proof.
  apply (nonpositive_steps_invalidate_nothing State view_3
           (self_after (read State view_1x1 (update data_1x1 1))) [(-1)%float; 0%float]).
  - repeat constructor.
  - reflexivity.
Defined.

Lemma view_to_data_order_permutes_rows_witness :
  exists r, _view_to_data_order data_2x3 (get_transforms view_2x3) = Ok r /\
            concat (einsum_ijk_jik r) = get_transforms view_2x3.
Proof.
  exact (view_to_data_order_permutes_rows data_2x3 (get_transforms view_2x3) 7
           eq_refl eq_refl eq_refl).
Defined.

End Behaviour.
